(** * DiVA firmware: the interrupt-to-task dispatch core of [DiVA-fw/main.c]

    A shallow embedding of [firmware/DiVA-fw/main.c]: the interrupt
    dispatcher [isr], the cooperative tasks [cdc_task] and
    [led_blinking_task], the TinyUSB device callbacks and the body of the
    forever loop of [main].

    The C code talks to the outside world through CSR accessors and the
    TinyUSB API.  Every such call that has an effect is recorded, in program
    order, in a trace of [hw_event]s; every value the outside world hands
    back (pending interrupts, received bytes, the millisecond clock, the raw
    button sample, ...) is an explicit argument of the embedded function. *)

From Stdlib Require Import ZArith NArith List Bool String Ascii Lia.
From Stdlib Require Import Strings.Byte DecimalString DecimalN.
Import ListNotations.
Local Open Scope string_scope.
Local Open Scope list_scope.
Local Open Scope Z_scope.

(* ------------------------------------------------------------------ *)
(** ** Machine integers *)

Module Int.

Definition modulus : Z := 2 ^ 32.
Definition half_modulus : Z := 2 ^ 31.

(** Conversion to [uint32_t]: reduction modulo 2^32. *)
Definition u32 (x : Z) : Z := x mod modulus.

(** Conversion to [int] (32 bits, two's complement). *)
Definition s32 (x : Z) : Z := (x + half_modulus) mod modulus - half_modulus.

(** C truth value of an integer expression. *)
Definition truthy (x : Z) : bool := negb (x =? 0).

(** Conversion of an [int] to C99 [bool]. *)
Definition to_bool (x : Z) : bool := truthy x.

End Int.

(* ------------------------------------------------------------------ *)
(** ** Constants of the generated headers

    [TIMER0_INTERRUPT] comes from [generated/csr.h] and [BUTTON_A_HOLD]
    from the board headers; neither header is part of the verified source,
    so both are parameters of the development. *)

Record board_config : Type := {
  TIMER0_INTERRUPT : Z;   (* bit index of the timer line *)
  BUTTON_A_HOLD : Z       (* bit mask of the hold gesture *)
}.

(** [#define USB_INTERRUPT 4] *)
Definition USB_INTERRUPT : Z := 4.

(** [enum { BLINK_NOT_MOUNTED = 250, BLINK_MOUNTED = 1000,
            BLINK_SUSPENDED = 2500 };] *)
Definition BLINK_NOT_MOUNTED : Z := 250.
Definition BLINK_MOUNTED : Z := 1000.
Definition BLINK_SUSPENDED : Z := 2500.

(* ------------------------------------------------------------------ *)
(** ** Program state and observable effects *)

(** The variables with static storage duration that [main.c] touches. *)
Record fw_state : Type := mk_fw_state {
  system_ticks : Z;        (* extern volatile uint32_t system_ticks *)
  blink_interval_ms : Z;   (* static uint32_t blink_interval_ms *)
  start_ms : Z;            (* static uint32_t start_ms   (led_blinking_task) *)
  led_state : bool;        (* static bool led_state      (led_blinking_task) *)
  count : Z                (* static count  (implicit int, led_blinking_task) *)
}.

(** Calls that leave the program, in the order they are made. *)
Inductive hw_event : Type :=
| ev_irq_setmask (mask : Z)
| ev_irq_setie (ie : Z)
| ev_timer_init
| ev_tusb_init
| ev_tud_int_handler (rhport : Z)
| ev_timer0_ev_pending_write (v : Z)
| ev_tud_cdc_read (bufsize : Z)
| ev_tud_cdc_write (data : list byte)
| ev_tud_cdc_write_flush
| ev_tud_cdc_write_str (str : string)
| ev_leds_out_write (v : Z)
| ev_reboot_ctrl_write (v : Z).

Definition trace : Type := list hw_event.

(** State at power-on: the static initialisers of [main.c].  [system_ticks]
    is defined in another translation unit; its initial value is left
    open. *)
Definition power_on (ticks0 : Z) : fw_state :=
  {| system_ticks := ticks0;
     blink_interval_ms := BLINK_NOT_MOUNTED;
     start_ms := 0;
     led_state := false;
     count := 0 |}.

(* ------------------------------------------------------------------ *)
(** ** A state-and-trace monad for the C statements *)

Definition fw (A : Type) : Type := fw_state -> A * fw_state * trace.

Definition ret {A} (a : A) : fw A := fun st => (a, st, []).

Definition bind {A B} (c : fw A) (k : A -> fw B) : fw B :=
  fun st =>
    let '(a, st1, t1) := c st in
    let '(b, st2, t2) := k a st1 in
    (b, st2, t1 ++ t2).

Definition get : fw fw_state := fun st => (st, st, []).
Definition put (st' : fw_state) : fw unit := fun _ => (tt, st', []).
Definition emit (e : hw_event) : fw unit := fun st => (tt, st, [e]).

Definition when (b : bool) (c : fw unit) : fw unit :=
  if b then c else ret tt.

Declare Scope fw_scope.
Delimit Scope fw_scope with fw.
Notation "x <- c1 ;; c2" := (bind c1 (fun x => c2))
  (at level 61, c1 at next level, right associativity) : fw_scope.
Notation "c1 ;; c2" := (bind c1 (fun _ => c2))
  (at level 61, right associativity) : fw_scope.
Local Open Scope fw_scope.

(** Final state and trace of a run. *)
Definition state_of {A} (r : A * fw_state * trace) : fw_state := snd (fst r).
Definition trace_of {A} (r : A * fw_state * trace) : trace := snd r.

(** Field updates. *)
Definition set_system_ticks (v : Z) : fw unit :=
  st <- get ;;
  put {| system_ticks := v;
         blink_interval_ms := blink_interval_ms st;
         start_ms := start_ms st;
         led_state := led_state st;
         count := count st |}.

Definition set_blink_interval_ms (v : Z) : fw unit :=
  st <- get ;;
  put {| system_ticks := system_ticks st;
         blink_interval_ms := v;
         start_ms := start_ms st;
         led_state := led_state st;
         count := count st |}.

Definition set_start_ms (v : Z) : fw unit :=
  st <- get ;;
  put {| system_ticks := system_ticks st;
         blink_interval_ms := blink_interval_ms st;
         start_ms := v;
         led_state := led_state st;
         count := count st |}.

Definition set_led_state (v : bool) : fw unit :=
  st <- get ;;
  put {| system_ticks := system_ticks st;
         blink_interval_ms := blink_interval_ms st;
         start_ms := start_ms st;
         led_state := v;
         count := count st |}.

Definition set_count (v : Z) : fw unit :=
  st <- get ;;
  put {| system_ticks := system_ticks st;
         blink_interval_ms := blink_interval_ms st;
         start_ms := start_ms st;
         led_state := led_state st;
         count := v |}.

(* ------------------------------------------------------------------ *)
(** ** The TinyUSB CDC interface, as seen from [main.c]

    The stack itself is an external collaborator.  A call is recorded as an
    event; what the stack answers is an argument. *)

(** [tud_cdc_read(buf, bufsize)]: the stack copies at most [bufsize] of the
    bytes it has to [delivered] to the front of [buf] and returns how many
    it copied.  The rest of [buf] keeps what it held. *)
Definition tud_cdc_read (delivered buf : list byte) (bufsize : Z)
  : fw (list byte * Z) :=
  let got := firstn (Z.to_nat bufsize) delivered in
  emit (ev_tud_cdc_read bufsize) ;;
  ret (got ++ skipn (List.length got) buf, Z.of_nat (List.length got)).

(** [tud_cdc_write(buf, count)]: hands the first [count] bytes of [buf] to
    the stack. *)
Definition tud_cdc_write (buf : list byte) (count : Z) : fw unit :=
  emit (ev_tud_cdc_write (firstn (Z.to_nat count) buf)).

Definition tud_cdc_write_flush : fw unit := emit ev_tud_cdc_write_flush.

Definition tud_cdc_write_str (str : string) : fw unit :=
  emit (ev_tud_cdc_write_str str).

(** [sizeof(buf)] for [char buf[64]]. *)
Definition ECHO_BUF_SIZE : Z := 64.

(** [void cdc_task(void)].  [available] is the value of
    [tud_cdc_available()], [delivered] the bytes the stack is ready to hand
    over, [stack] the indeterminate initial contents of the local [buf]. *)
Definition cdc_task (available : Z) (delivered stack : list byte) : fw unit :=
  when (Int.truthy available)
    (r <- tud_cdc_read delivered stack ECHO_BUF_SIZE ;;
     let buf := fst r in
     let count := Int.u32 (snd r) in
     tud_cdc_write buf count ;;
     tud_cdc_write_flush).

(** [void tud_cdc_line_state_cb(uint8_t itf, bool dtr, bool rts)]: both
    branches of the [if (dtr)] are empty. *)
Definition tud_cdc_line_state_cb (itf : Z) (dtr rts : bool) : fw unit :=
  if dtr then ret tt else ret tt.

(** [void tud_cdc_rx_cb(uint8_t itf)] *)
Definition tud_cdc_rx_cb (itf : Z) : fw unit := ret tt.

(* ------------------------------------------------------------------ *)
(** ** Device callbacks *)

Definition tud_mount_cb : fw unit := set_blink_interval_ms BLINK_MOUNTED.

Definition tud_umount_cb : fw unit := set_blink_interval_ms BLINK_NOT_MOUNTED.

Definition tud_suspend_cb (remote_wakeup_en : bool) : fw unit :=
  set_blink_interval_ms BLINK_SUSPENDED.

Definition tud_resume_cb : fw unit := set_blink_interval_ms BLINK_MOUNTED.

(* ------------------------------------------------------------------ *)
(** ** The blinking task *)

(** [void board_led_write(bool state)] *)
Definition board_led_write (state : bool) : fw unit :=
  emit (ev_leds_out_write (if state then 1 else 0)).

(** Carriage return, line feed. *)
Definition CRLF : string :=
  String (ascii_of_nat 13) (String (ascii_of_nat 10) EmptyString).

(** The [%u] conversion applied to an [int] argument: the 32-bit pattern
    read as unsigned, in decimal. *)
Definition format_u (v : Z) : string :=
  NilZero.string_of_uint (N.to_uint (Z.to_N (Int.u32 v))).

(** [sprintf(str, "Hello! %u\r\n", v)] *)
Definition sprintf_hello (v : Z) : string :=
  ("Hello! " ++ format_u v ++ CRLF)%string.

(** [count++] on the static [int]: yields the old value. *)
Definition count_post_incr : fw Z :=
  st <- get ;;
  set_count (Int.s32 (count st + 1)) ;;
  ret (count st).

(** [void led_blinking_task(void)].  [millis] is the value returned by
    [board_millis()] (declared in [include/time.h], outside the verified
    source: the current reading of the millisecond tick clock), [connected]
    the value [tud_cdc_connected()] returns when it is called. *)
Definition led_blinking_task (millis : Z) (connected : bool) : fw unit :=
  st <- get ;;
  if Int.u32 (millis - start_ms st) <? blink_interval_ms st
  then ret tt                                   (* not enough time *)
  else
    set_start_ms (Int.u32 (start_ms st + blink_interval_ms st)) ;;
    board_led_write (led_state st) ;;
    when connected
      (c <- count_post_incr ;;
       tud_cdc_write_str (sprintf_hello c) ;;
       tud_cdc_write_flush) ;;
    st' <- get ;;
    set_led_state (Int.to_bool (1 - Z.b2z (led_state st'))).   (* toggle *)

(* ------------------------------------------------------------------ *)
(** ** The interrupt dispatcher and the main loop *)

(** Callbacks the stack may invoke from [tud_task()]. *)
Inductive usb_callback : Type :=
| cb_mount
| cb_umount
| cb_suspend (remote_wakeup_en : bool)
| cb_resume
| cb_cdc_line_state (itf : Z) (dtr rts : bool)
| cb_cdc_rx (itf : Z).

Definition run_callback (cb : usb_callback) : fw unit :=
  match cb with
  | cb_mount => tud_mount_cb
  | cb_umount => tud_umount_cb
  | cb_suspend en => tud_suspend_cb en
  | cb_resume => tud_resume_cb
  | cb_cdc_line_state itf dtr rts => tud_cdc_line_state_cb itf dtr rts
  | cb_cdc_rx itf => tud_cdc_rx_cb itf
  end.

(** [tud_task()]: opaque to [main.c] but for the callbacks it invokes. *)
Fixpoint tud_task (cbs : list usb_callback) : fw unit :=
  match cbs with
  | [] => ret tt
  | cb :: cbs' => run_callback cb ;; tud_task cbs'
  end.

(** What the outside world answers during one iteration of [while(1)]. *)
Record loop_input : Type := {
  in_callbacks : list usb_callback;  (* invoked by tud_task() *)
  in_available : Z;                  (* tud_cdc_available() *)
  in_delivered : list byte;          (* bytes tud_cdc_read() can hand over *)
  in_stack : list byte;              (* initial contents of buf *)
  in_millis : Z;                     (* board_millis() *)
  in_connected : bool;               (* tud_cdc_connected() *)
  in_button_raw : Z                  (* button_raw_read() *)
}.

Section Firmware.

Variable cfg : board_config.

(** [void isr(void)].  [pending] and [mask] are the values returned by
    [irq_pending()] and [irq_getmask()]. *)
Definition isr (pending mask : Z) : fw unit :=
  let irqs := Int.u32 (Z.land pending mask) in
  when (Int.truthy (Z.land irqs (Z.shiftl 1 USB_INTERRUPT)))
       (emit (ev_tud_int_handler 0)) ;;
  when (Int.truthy (Z.land irqs (Z.shiftl 1 (TIMER0_INTERRUPT cfg))))
       (st <- get ;;
        set_system_ticks (Int.u32 (system_ticks st + 1)) ;;
        emit (ev_timer0_ev_pending_write 1)).

(** Lines 78-81 of [main]: [int b_val = button_raw_read();
    if (b_val & BUTTON_A_HOLD) reboot_ctrl_write(0xac);] *)
Definition button_watch (button_raw : Z) : fw unit :=
  let b_val := Int.s32 button_raw in
  when (Int.truthy (Z.land b_val (BUTTON_A_HOLD cfg)))
       (emit (ev_reboot_ctrl_write 0xac)).

(** The statements of [main] before the loop. *)
Definition main_init : fw unit :=
  emit (ev_irq_setmask 0) ;;
  emit (ev_irq_setie 1) ;;
  emit ev_timer_init ;;
  emit ev_tusb_init.

(** One iteration of the [while(1)] of [main]. *)
Definition main_loop_body (i : loop_input) : fw unit :=
  tud_task (in_callbacks i) ;;
  cdc_task (in_available i) (in_delivered i) (in_stack i) ;;
  led_blinking_task (in_millis i) (in_connected i) ;;
  button_watch (in_button_raw i).

(** The first iterations of the loop, one per element of [inputs]. *)
Fixpoint main_loop (inputs : list loop_input) : fw unit :=
  match inputs with
  | [] => ret tt
  | i :: inputs' => main_loop_body i ;; main_loop inputs'
  end.

(** [int main(int i, char **c)], cut off after [length inputs]
    iterations. *)
Definition main (inputs : list loop_input) : fw unit :=
  main_init ;; main_loop inputs.

(** A device session: interrupts, callbacks and tasks in the order in
    which they run.  A step is a whole task or callback, and the interrupt
    dispatcher runs between steps.  In the program it may also preempt a
    task between two of its statements; since [isr] writes no variable but
    [system_ticks] and makes no call but its own two, that changes neither
    the other variables nor the calls the tasks make, only where the calls
    of [isr] sit among them (see [preempted]). *)
Inductive action : Type :=
| a_isr (pending mask : Z)
| a_callback (cb : usb_callback)
| a_cdc_task (available : Z) (delivered stack : list byte)
| a_led_blinking_task (millis : Z) (connected : bool)
| a_button_watch (button_raw : Z).

Definition run_action (a : action) : fw unit :=
  match a with
  | a_isr pending mask => isr pending mask
  | a_callback cb => run_callback cb
  | a_cdc_task available delivered stack => cdc_task available delivered stack
  | a_led_blinking_task millis connected => led_blinking_task millis connected
  | a_button_watch button_raw => button_watch button_raw
  end.

Fixpoint run (acts : list action) : fw unit :=
  match acts with
  | [] => ret tt
  | a :: acts' => run_action a ;; run acts'
  end.

(** The actions of one loop iteration. *)
Definition loop_actions (i : loop_input) : list action :=
  map a_callback (in_callbacks i) ++
  [ a_cdc_task (in_available i) (in_delivered i) (in_stack i);
    a_led_blinking_task (in_millis i) (in_connected i);
    a_button_watch (in_button_raw i) ].

End Firmware.

(* ------------------------------------------------------------------ *)
(** ** Observations on traces *)

Definition is_timer_ack (e : hw_event) : bool :=
  match e with ev_timer0_ev_pending_write _ => true | _ => false end.

Definition is_cdc_write (e : hw_event) : bool :=
  match e with ev_tud_cdc_write _ => true | _ => false end.

Definition is_cdc_flush (e : hw_event) : bool :=
  match e with ev_tud_cdc_write_flush => true | _ => false end.

Definition is_led_write (e : hw_event) : bool :=
  match e with ev_leds_out_write _ => true | _ => false end.

Definition is_reboot_write (e : hw_event) : bool :=
  match e with ev_reboot_ctrl_write _ => true | _ => false end.

Definition is_reset_sentinel (e : hw_event) : bool :=
  match e with ev_reboot_ctrl_write v => v =? 0xac | _ => false end.

Definition count_events (p : hw_event -> bool) (t : trace) : nat :=
  List.length (filter p t).

(** Bytes handed to [tud_cdc_write], in order. *)
Fixpoint bytes_written (t : trace) : list byte :=
  match t with
  | [] => []
  | ev_tud_cdc_write data :: t' => data ++ bytes_written t'
  | _ :: t' => bytes_written t'
  end.

(** Strings handed to [tud_cdc_write_str], in order. *)
Fixpoint greetings (t : trace) : list string :=
  match t with
  | [] => []
  | ev_tud_cdc_write_str s :: t' => s :: greetings t'
  | _ :: t' => greetings t'
  end.

(** The counter value a greeting carries: the decimal number between
    ["Hello! "] and the line end. *)
Fixpoint strip_prefix (p s : string) : option string :=
  match p, s with
  | EmptyString, _ => Some s
  | String a p', String b s' =>
      if Ascii.eqb a b then strip_prefix p' s' else None
  | String _ _, EmptyString => None
  end.

Definition is_cr (a : ascii) : bool := Ascii.eqb a (ascii_of_nat 13).

(** Splits a string in front of its first carriage return. *)
Fixpoint until_cr (s : string) : string * string :=
  match s with
  | EmptyString => (EmptyString, EmptyString)
  | String a s' =>
      if is_cr a then (EmptyString, s)
      else let (d, r) := until_cr s' in (String a d, r)
  end.

Definition greeting_value (s : string) : option Z :=
  match strip_prefix "Hello! " s with
  | None => None
  | Some body =>
      let (digits, rest) := until_cr body in
      if String.eqb rest CRLF
      then option_map (fun d => Z.of_N (N.of_uint d))
                      (NilZero.uint_of_string digits)
      else None
  end.

(** The two tests [isr] makes on [irqs]. *)
Definition usb_line (pending mask : Z) : bool :=
  Int.truthy (Z.land (Int.u32 (Z.land pending mask)) (Z.shiftl 1 USB_INTERRUPT)).

Definition timer_line (cfg : board_config) (pending mask : Z) : bool :=
  Int.truthy (Z.land (Int.u32 (Z.land pending mask))
                     (Z.shiftl 1 (TIMER0_INTERRUPT cfg))).

(** Number of interrupt-dispatcher runs of a session in which the timer
    bit is set in (pending AND mask). *)
Definition timer_bit_set (cfg : board_config) (pending mask : Z) : bool :=
  Z.testbit (Z.land pending mask) (TIMER0_INTERRUPT cfg).

Definition is_timer_interrupt (cfg : board_config) (a : action) : bool :=
  match a with
  | a_isr pending mask => timer_bit_set cfg pending mask
  | _ => false
  end.

Definition timer_interrupts (cfg : board_config) (acts : list action) : nat :=
  List.length (filter (is_timer_interrupt cfg) acts).

(** Back-to-back interrupts: nothing else runs in between. *)
Definition back_to_back (irqs : list (Z * Z)) : list action :=
  map (fun pm => a_isr (fst pm) (snd pm)) irqs.

(** Successive invocations of the blinking task, each with the clock value
    and connection flag it observes. *)
Fixpoint led_blinking_iter (samples : list (Z * bool)) : fw unit :=
  match samples with
  | [] => ret tt
  | (millis, connected) :: samples' =>
      led_blinking_task millis connected ;; led_blinking_iter samples'
  end.

(* ------------------------------------------------------------------ *)
(** ** The connection state machine, as the spec words it

    The spec describes an enumerated Connection State with a transition
    per transport event and a Blink Period derived from the state.  The C
    code keeps a single variable, [blink_interval_ms], whose value is the
    period itself.  The definitions below follow the spec; the theorems
    relate them to the callbacks. *)

Inductive conn_state : Type := NOT_MOUNTED | MOUNTED | SUSPENDED.

Inductive conn_event : Type :=
| on_mount
| on_unmount
| on_suspend (remote_wakeup_en : bool)
| on_resume.

Definition spec_blink_period (s : conn_state) : Z :=
  match s with
  | NOT_MOUNTED => 250
  | MOUNTED => 1000
  | SUSPENDED => 2500
  end.

Definition spec_transition (s : conn_state) (e : conn_event) : conn_state :=
  match e with
  | on_mount => MOUNTED
  | on_unmount => NOT_MOUNTED
  | on_suspend _ => SUSPENDED
  | on_resume => MOUNTED
  end.

Definition spec_initial : conn_state := NOT_MOUNTED.

(** The callback by which the stack delivers an event. *)
Definition callback_of_event (e : conn_event) : usb_callback :=
  match e with
  | on_mount => cb_mount
  | on_unmount => cb_umount
  | on_suspend en => cb_suspend en
  | on_resume => cb_resume
  end.

Definition event_of_callback (cb : usb_callback) : option conn_event :=
  match cb with
  | cb_mount => Some on_mount
  | cb_umount => Some on_unmount
  | cb_suspend en => Some (on_suspend en)
  | cb_resume => Some on_resume
  | cb_cdc_line_state _ _ _ => None
  | cb_cdc_rx _ => None
  end.

(** Connection state of the spec after a session. *)
Definition spec_step (s : conn_state) (a : action) : conn_state :=
  match a with
  | a_callback cb =>
      match event_of_callback cb with
      | Some e => spec_transition s e
      | None => s
      end
  | _ => s
  end.

Definition spec_after (s : conn_state) (acts : list action) : conn_state :=
  fold_left spec_step acts s.

(* ------------------------------------------------------------------ *)
(** ** Further observations on sessions and traces *)

(** The USB bit of (pending AND mask). *)
Definition usb_bit_set (pending mask : Z) : bool :=
  Z.testbit (Z.land pending mask) USB_INTERRUPT.

(** [st] with the tick counter moved on by one. *)
Definition tick (st : fw_state) : fw_state :=
  {| system_ticks := Int.u32 (system_ticks st + 1);
     blink_interval_ms := blink_interval_ms st;
     start_ms := start_ms st;
     led_state := led_state st;
     count := count st |}.

(** The value a callback stores in [blink_interval_ms], if it stores one. *)
Definition callback_period (cb : usb_callback) : option Z :=
  match cb with
  | cb_mount => Some BLINK_MOUNTED
  | cb_umount => Some BLINK_NOT_MOUNTED
  | cb_suspend _ => Some BLINK_SUSPENDED
  | cb_resume => Some BLINK_MOUNTED
  | cb_cdc_line_state _ _ _ => None
  | cb_cdc_rx _ => None
  end.

(** The period stored by the last storing callback of [cbs], [old] if there
    is none. *)
Fixpoint last_period (old : Z) (cbs : list usb_callback) : Z :=
  match cbs with
  | [] => old
  | cb :: cbs' =>
      last_period (match callback_period cb with Some p => p | None => old end)
                  cbs'
  end.

(** Every variable holds a value of its C type, and the blink period is
    one of the three enumerators. *)
Definition in_range (st : fw_state) : Prop :=
  0 <= system_ticks st < Int.modulus
  /\ (blink_interval_ms st = BLINK_NOT_MOUNTED
      \/ blink_interval_ms st = BLINK_MOUNTED
      \/ blink_interval_ms st = BLINK_SUSPENDED)
  /\ 0 <= start_ms st < Int.modulus
  /\ - Int.half_modulus <= count st < Int.half_modulus.

(** Levels written to the indicator, in order. *)
Fixpoint led_levels (t : trace) : list Z :=
  match t with
  | [] => []
  | ev_leds_out_write v :: t' => v :: led_levels t'
  | _ :: t' => led_levels t'
  end.

(** [n] levels, starting at [b] and alternating. *)
Fixpoint alternating (b : bool) (n : nat) : list Z :=
  match n with
  | O => []
  | S n' => Z.b2z b :: alternating (negb b) n'
  end.

(** Every [tud_cdc_write] and [tud_cdc_write_str] in the trace is directly
    followed by a [tud_cdc_write_flush]. *)
Fixpoint well_flushed (t : trace) : bool :=
  match t with
  | [] => true
  | ev_tud_cdc_write _ :: t' =>
      match t' with
      | ev_tud_cdc_write_flush :: t'' => well_flushed t''
      | _ => false
      end
  | ev_tud_cdc_write_str _ :: t' =>
      match t' with
      | ev_tud_cdc_write_flush :: t'' => well_flushed t''
      | _ => false
      end
  | _ :: t' => well_flushed t'
  end.

(** Calls made by the interrupt dispatcher. *)
Definition is_isr_call (e : hw_event) : bool :=
  match e with
  | ev_tud_int_handler _ => true
  | ev_timer0_ev_pending_write _ => true
  | _ => false
  end.

(** The calls of a trace that the loop makes, those of [isr] left out. *)
Definition task_calls (t : trace) : trace :=
  filter (fun e => negb (is_isr_call e)) t.

(** [preempted t t']: [t'] is [t] with calls of the interrupt dispatcher
    inserted at arbitrary places, as when [isr] preempts a task between
    two of its calls. *)
Inductive preempted : trace -> trace -> Prop :=
| preempted_nil : preempted [] []
| preempted_task e t t' :
    preempted t t' -> preempted (e :: t) (e :: t')
| preempted_isr e t t' :
    is_isr_call e = true -> preempted t t' -> preempted t (e :: t').

(** What a run of loop iterations echoes: for each iteration that finds
    bytes available, the bytes its read returns. *)
Fixpoint echoed (inputs : list loop_input) : list byte :=
  match inputs with
  | [] => []
  | i :: inputs' =>
      (if Int.truthy (in_available i)
       then firstn (Z.to_nat ECHO_BUF_SIZE) (in_delivered i)
       else [])
      ++ echoed inputs'
  end.

(** Iterations whose button sample has a bit of the hold pattern set. *)
Definition hold_sample (cfg : board_config) (i : loop_input) : bool :=
  Int.truthy (Z.land (Int.s32 (in_button_raw i)) (BUTTON_A_HOLD cfg)).

Definition hold_iterations (cfg : board_config) (inputs : list loop_input)
  : nat :=
  List.length (filter (hold_sample cfg) inputs).

(** The most significant digit of a little-endian decimal number is not
    zero. *)
Fixpoint top_digit_nonzero (d : Decimal.uint) : bool :=
  match d with
  | Decimal.Nil => false
  | Decimal.D0 d' => top_digit_nonzero d'
  | Decimal.D1 d' | Decimal.D2 d' | Decimal.D3 d'
  | Decimal.D4 d' | Decimal.D5 d' | Decimal.D6 d'
  | Decimal.D7 d' | Decimal.D8 d' | Decimal.D9 d' =>
      match d' with
      | Decimal.Nil => true
      | _ => top_digit_nonzero d'
      end
  end.

(** [sizeof(str)] for [char str[256]] in [led_blinking_task]. *)
Definition GREETING_BUF_SIZE : nat := 256.

(* ------------------------------------------------------------------ *)
(** ** Concrete inputs used in examples *)

(** A board whose timer is interrupt line 1 and whose hold gesture is
    bit 1 of the button register. *)
Definition sample_board : board_config :=
  {| TIMER0_INTERRUPT := 1; BUTTON_A_HOLD := 2 |}.

(** A loop iteration in which only the clock and the stack's callbacks
    matter: nothing received, terminal connected, button released. *)
Definition blink_iteration (cbs : list usb_callback) (millis : Z) : loop_input :=
  {| in_callbacks := cbs;
     in_available := 0;
     in_delivered := [];
     in_stack := [];
     in_millis := millis;
     in_connected := true;
     in_button_raw := 0 |}.


(* ------------------------------------------------------------------ *)
(** ** Facts about machine integers *)

Module IntFacts.
Import Int.

Lemma u32_range x : 0 <= u32 x < modulus.
Proof. unfold u32, modulus. apply Z.mod_pos_bound. reflexivity. Qed.

Lemma u32_small x : 0 <= x < modulus -> u32 x = x.
Proof. unfold u32. apply Z.mod_small. Qed.

Lemma u32_idem x : u32 (u32 x) = u32 x.
Proof. unfold u32. apply Z.mod_mod. unfold modulus. lia. Qed.

Lemma u32_s32 x : u32 (s32 x) = u32 x.
Proof.
  unfold u32, s32.
  rewrite Zminus_mod_idemp_l.
  f_equal. unfold half_modulus. lia.
Qed.

Lemma u32_add_l x y : u32 (u32 x + y) = u32 (x + y).
Proof. unfold u32. apply Zplus_mod_idemp_l. Qed.

Lemma u32_add_r x y : u32 (x + u32 y) = u32 (x + y).
Proof. unfold u32. apply Zplus_mod_idemp_r. Qed.

Lemma truthy_true x : truthy x = true <-> x <> 0.
Proof.
  unfold truthy. rewrite negb_true_iff. apply Z.eqb_neq.
Qed.

Lemma truthy_false x : truthy x = false <-> x = 0.
Proof.
  unfold truthy. rewrite negb_false_iff. apply Z.eqb_eq.
Qed.

(** [x & (1 << n)] is non-zero exactly when bit [n] of [x] is set. *)
Lemma truthy_land_bit x n :
  0 <= n -> truthy (Z.land x (Z.shiftl 1 n)) = Z.testbit x n.
Proof.
  intros Hn.
  rewrite Z.shiftl_1_l.
  destruct (Z.testbit x n) eqn:Hb.
  - apply truthy_true. intros H0.
    assert (Hbit : Z.testbit (Z.land x (2 ^ n)) n = true).
    { rewrite Z.land_spec, Hb, Z.pow2_bits_true by exact Hn. reflexivity. }
    rewrite H0, Z.bits_0 in Hbit. discriminate.
  - apply truthy_false. apply Z.bits_inj'. intros m Hm.
    rewrite Z.land_spec, Z.bits_0, Z.pow2_bits_eqb by exact Hn.
    destruct (Z.eqb_spec n m) as [->|_].
    + rewrite Hb. reflexivity.
    + apply andb_false_r.
Qed.

End IntFacts.

(* ------------------------------------------------------------------ *)
(** ** Sanity checks of the embedding on concrete inputs *)

Example isr_timer_only :
  isr sample_board 2 3 (power_on 41)
  = (tt, mk_fw_state 42 250 0 false 0, [ev_timer0_ev_pending_write 1]).
Proof. reflexivity. Qed.

Example isr_usb_and_timer :
  trace_of (isr sample_board 18 18 (power_on 0))
  = [ev_tud_int_handler 0; ev_timer0_ev_pending_write 1].
Proof. reflexivity. Qed.

Example isr_masked :
  isr sample_board 2 0 (power_on 7) = (tt, power_on 7, []).
Proof. reflexivity. Qed.

Example sprintf_hello_12 :
  sprintf_hello 12
  = ("Hello! 12" ++ CRLF)%string.
Proof. reflexivity. Qed.

Example sprintf_hello_minus_one : format_u (-1) = "4294967295".
Proof. reflexivity. Qed.

Example cdc_task_echo :
  trace_of (cdc_task 2 [x68; x69] [x00; x00; x00] (power_on 0))
  = [ev_tud_cdc_read 64; ev_tud_cdc_write [x68; x69]; ev_tud_cdc_write_flush].
Proof. reflexivity. Qed.

Example led_blinking_task_early :
  led_blinking_task 249 true (power_on 249) = (tt, power_on 249, []).
Proof. reflexivity. Qed.

Example led_blinking_task_due :
  led_blinking_task 260 true (power_on 260)
  = (tt, mk_fw_state 260 250 250 true 1,
     [ev_leds_out_write 0; ev_tud_cdc_write_str (sprintf_hello 0);
      ev_tud_cdc_write_flush]).
Proof. reflexivity. Qed.

(** Power-on, mount, then one greeting per 1000 ticks, numbered from 0. *)
Example main_mount_then_greet :
  main sample_board
       [blink_iteration [cb_mount] 0;
        blink_iteration [] 999;
        blink_iteration [] 1000;
        blink_iteration [] 1500;
        blink_iteration [] 2000]
       (power_on 0)
  = (tt, mk_fw_state 0 1000 2000 false 2,
     [ev_irq_setmask 0; ev_irq_setie 1; ev_timer_init; ev_tusb_init;
      ev_leds_out_write 0; ev_tud_cdc_write_str (sprintf_hello 0);
      ev_tud_cdc_write_flush;
      ev_leds_out_write 1; ev_tud_cdc_write_str (sprintf_hello 1);
      ev_tud_cdc_write_flush]).
Proof. reflexivity. Qed.

(* ------------------------------------------------------------------ *)
(** ** Running statements in sequence *)

Lemma state_of_seq (c1 c2 : fw unit) st :
  state_of ((c1 ;; c2) st) = state_of (c2 (state_of (c1 st))).
Proof.
  unfold bind, state_of.
  destruct (c1 st) as [[[] st1] t1]. cbn.
  destruct (c2 st1) as [[[] st2] t2]. reflexivity.
Qed.

Lemma trace_of_seq (c1 c2 : fw unit) st :
  trace_of ((c1 ;; c2) st)
  = trace_of (c1 st) ++ trace_of (c2 (state_of (c1 st))).
Proof.
  unfold bind, trace_of, state_of.
  destruct (c1 st) as [[[] st1] t1]. cbn.
  destruct (c2 st1) as [[[] st2] t2]. reflexivity.
Qed.

Lemma count_events_app p t1 t2 :
  count_events p (t1 ++ t2) = (count_events p t1 + count_events p t2)%nat.
Proof. unfold count_events. rewrite filter_app. apply length_app. Qed.

Lemma greetings_app t1 t2 : greetings (t1 ++ t2) = greetings t1 ++ greetings t2.
Proof.
  induction t1 as [|e t1 IH]; [reflexivity|].
  destruct e; cbn; rewrite IH; reflexivity.
Qed.

Lemma bytes_written_app t1 t2 :
  bytes_written (t1 ++ t2) = bytes_written t1 ++ bytes_written t2.
Proof.
  induction t1 as [|e t1 IH]; [reflexivity|].
  destruct e; cbn; rewrite IH; try reflexivity.
  apply app_assoc.
Qed.

(** A fully determined result is a determined state and a determined
    trace. *)
Lemma fw_unit_eq (r : unit * fw_state * trace) st t :
  state_of r = st -> trace_of r = t -> r = (tt, st, t).
Proof.
  destruct r as [[[] st'] t']. unfold state_of, trace_of. cbn.
  intros -> ->. reflexivity.
Qed.

Lemma fw_unit_ext (r1 r2 : unit * fw_state * trace) :
  state_of r1 = state_of r2 -> trace_of r1 = trace_of r2 -> r1 = r2.
Proof.
  destruct r1 as [[[] st1] t1], r2 as [[[] st2] t2].
  unfold state_of, trace_of. cbn. intros -> ->. reflexivity.
Qed.

(* ------------------------------------------------------------------ *)
(** ** The USB transport task *)

(** What [cdc_task] does once [tud_cdc_available()] is non-zero: one read,
    one write of the bytes read, one flush, whatever the number of bytes. *)
Lemma cdc_task_available available delivered stack st :
  Int.truthy available = true ->
  cdc_task available delivered stack st
  = (tt, st,
     [ev_tud_cdc_read ECHO_BUF_SIZE;
      ev_tud_cdc_write (firstn (Z.to_nat ECHO_BUF_SIZE) delivered);
      ev_tud_cdc_write_flush]).
Proof.
  intros Hav. unfold cdc_task. rewrite Hav. cbn -[firstn skipn Z.to_nat].
  set (got := firstn (Z.to_nat ECHO_BUF_SIZE) delivered).
  assert (Hlen : (List.length got <= 64)%nat).
  { subst got. rewrite length_firstn. apply Nat.le_min_l. }
  rewrite IntFacts.u32_small by (unfold Int.modulus; lia).
  rewrite Nat2Z.id, firstn_app, Nat.sub_diag, firstn_all.
  cbn. rewrite app_nil_r. reflexivity.
Qed.

(** C8.  Invoking [cdc_task] when [tud_cdc_available()] reports zero
    received bytes is a no-op: it returns at once, with no read, no write
    and no flush (the trace is empty) and with every program variable
    unchanged. *)
Theorem cdc_task_nothing_available delivered stack st :
  cdc_task 0 delivered stack st = (tt, st, [])
  /\ bytes_written (trace_of (cdc_task 0 delivered stack st)) = []
  /\ count_events is_cdc_flush (trace_of (cdc_task 0 delivered stack st)) = 0%nat.
Proof. repeat split. Qed.

(** C7.  When bytes are available and the stack delivers a byte sequence no
    longer than the 64-byte echo buffer in one read, [cdc_task] passes
    exactly those bytes, in order and in number, to [tud_cdc_write] and
    then flushes once; a short read is echoed with the count actually
    read.  The program variables are untouched. *)
Theorem cdc_task_echo_fidelity available delivered stack st :
  Int.truthy available = true ->
  (List.length delivered <= 64)%nat ->
  cdc_task available delivered stack st
  = (tt, st,
     [ev_tud_cdc_read 64; ev_tud_cdc_write delivered; ev_tud_cdc_write_flush])
  /\ bytes_written (trace_of (cdc_task available delivered stack st))
     = delivered.
Proof.
  intros Hav Hlen.
  rewrite (cdc_task_available _ _ _ _ Hav).
  rewrite firstn_all2 by exact Hlen.
  split; [reflexivity|]. cbn. apply app_nil_r.
Qed.

Lemma cdc_task_echo_fidelity_witness :
  cdc_task 5 [x44; x69; x56; x41] [x00] (power_on 0)
  = (tt, power_on 0,
     [ev_tud_cdc_read 64; ev_tud_cdc_write [x44; x69; x56; x41];
      ev_tud_cdc_write_flush])
  /\ bytes_written
       (trace_of (cdc_task 5 [x44; x69; x56; x41] [x00] (power_on 0)))
     = [x44; x69; x56; x41].
Proof.
  apply (cdc_task_echo_fidelity 5 [x44; x69; x56; x41] [x00] (power_on 0)).
  - reflexivity.
  - cbn. lia.
Defined.

(** C2, as the code has it.  When bytes were reported available and the
    read returns a count of 0, [cdc_task] still calls [tud_cdc_write], with
    a length of zero, and then [tud_cdc_write_flush] once; no payload byte
    is handed to the stack and the program variables are unchanged. *)
Theorem cdc_task_empty_read available stack st :
  Int.truthy available = true ->
  cdc_task available [] stack st
  = (tt, st,
     [ev_tud_cdc_read 64; ev_tud_cdc_write []; ev_tud_cdc_write_flush])
  /\ bytes_written (trace_of (cdc_task available [] stack st)) = []
  /\ count_events is_cdc_write (trace_of (cdc_task available [] stack st))
     = 1%nat
  /\ count_events is_cdc_flush (trace_of (cdc_task available [] stack st))
     = 1%nat.
Proof.
  intros Hav. rewrite (cdc_task_available _ _ _ _ Hav).
  repeat split.
Qed.

Lemma cdc_task_empty_read_witness :
  cdc_task 1 [] [x00; x01] (power_on 0)
  = (tt, power_on 0,
     [ev_tud_cdc_read 64; ev_tud_cdc_write []; ev_tud_cdc_write_flush])
  /\ bytes_written (trace_of (cdc_task 1 [] [x00; x01] (power_on 0))) = []
  /\ count_events is_cdc_write
       (trace_of (cdc_task 1 [] [x00; x01] (power_on 0))) = 1%nat
  /\ count_events is_cdc_flush
       (trace_of (cdc_task 1 [] [x00; x01] (power_on 0))) = 1%nat.
Proof.
  apply (cdc_task_empty_read 1 [x00; x01] (power_on 0)). reflexivity.
Defined.

(** C2, as the spec words it, fails: with one byte reported available and a
    read that returns a count of 0, a write call and a flush call are both
    made. *)
Lemma cdc_task_empty_read_still_flushes :
  Int.u32 (snd (fst (fst (tud_cdc_read [] [x00; x01] 64 (power_on 0))))) = 0
  /\ ~ (count_events is_cdc_write
          (trace_of (cdc_task 1 [] [x00; x01] (power_on 0))) = 0%nat
        /\ count_events is_cdc_flush
             (trace_of (cdc_task 1 [] [x00; x01] (power_on 0))) = 0%nat).
Proof.
  split; [reflexivity|].
  intros [H _]. vm_compute in H. discriminate.
Qed.

(* ------------------------------------------------------------------ *)
(** ** Callbacks *)

Lemma run_callback_spec cb st :
  run_callback cb st
  = (tt,
     match event_of_callback cb with
     | Some e =>
         {| system_ticks := system_ticks st;
            blink_interval_ms :=
              spec_blink_period (spec_transition spec_initial e);
            start_ms := start_ms st;
            led_state := led_state st;
            count := count st |}
     | None => st
     end,
     []).
Proof. destruct cb as [| |en| |itf [|] rts|itf]; reflexivity. Qed.

(** C9.  The line-state callback (any interface id, DTR, RTS) and the
    data-received callback (any interface id) do nothing: they return the
    program state as it was and make no outside call.  The suspend callback
    accepts either value of the remote-wakeup flag, ignores it, and only
    sets the blink period to the suspended value. *)
Theorem callbacks_without_action itf dtr rts remote_wakeup_en st :
  tud_cdc_line_state_cb itf dtr rts st = (tt, st, [])
  /\ tud_cdc_rx_cb itf st = (tt, st, [])
  /\ tud_suspend_cb remote_wakeup_en st
     = (tt,
        {| system_ticks := system_ticks st;
           blink_interval_ms := BLINK_SUSPENDED;
           start_ms := start_ms st;
           led_state := led_state st;
           count := count st |},
        [])
  /\ tud_suspend_cb true st = tud_suspend_cb false st.
Proof.
  repeat split. destruct dtr; reflexivity.
Qed.

(* ------------------------------------------------------------------ *)
(** ** The interrupt dispatcher *)

Section IsrFacts.

Variable cfg : board_config.

Lemma isr_spec pending mask st :
  isr cfg pending mask st
  = (tt,
     (if timer_line cfg pending mask
      then {| system_ticks := Int.u32 (system_ticks st + 1);
              blink_interval_ms := blink_interval_ms st;
              start_ms := start_ms st;
              led_state := led_state st;
              count := count st |}
      else st),
     (if usb_line pending mask then [ev_tud_int_handler 0] else [])
     ++ (if timer_line cfg pending mask
         then [ev_timer0_ev_pending_write 1] else [])).
Proof.
  unfold isr, timer_line, usb_line.
  destruct (Int.truthy (Z.land _ (Z.shiftl 1 USB_INTERRUPT)));
    destruct (Int.truthy (Z.land _ (Z.shiftl 1 (TIMER0_INTERRUPT cfg))));
    reflexivity.
Qed.

Hypothesis timer_index : 0 <= TIMER0_INTERRUPT cfg < 32.

(** The test the code makes is the test of the timer bit of
    (pending AND mask). *)
Lemma timer_line_bit pending mask :
  timer_line cfg pending mask = timer_bit_set cfg pending mask.
Proof.
  unfold timer_line, timer_bit_set.
  rewrite IntFacts.truthy_land_bit by lia.
  unfold Int.u32, Int.modulus.
  apply Z.mod_pow2_bits_low. lia.
Qed.

Lemma isr_ticks pending mask st :
  system_ticks (state_of (isr cfg pending mask st))
  = if timer_bit_set cfg pending mask
    then Int.u32 (system_ticks st + 1) else system_ticks st.
Proof.
  rewrite isr_spec, timer_line_bit.
  destruct (timer_bit_set cfg pending mask); reflexivity.
Qed.

Lemma isr_acks pending mask st :
  filter is_timer_ack (trace_of (isr cfg pending mask st))
  = if timer_bit_set cfg pending mask
    then [ev_timer0_ev_pending_write 1] else [].
Proof.
  rewrite isr_spec, timer_line_bit.
  destruct (usb_line pending mask);
    destruct (timer_bit_set cfg pending mask); reflexivity.
Qed.

End IsrFacts.

(* ------------------------------------------------------------------ *)
(** ** What each task does, in closed form *)

Lemma cdc_task_spec available delivered stack st :
  cdc_task available delivered stack st
  = (tt, st,
     if Int.truthy available
     then [ev_tud_cdc_read ECHO_BUF_SIZE;
           ev_tud_cdc_write (firstn (Z.to_nat ECHO_BUF_SIZE) delivered);
           ev_tud_cdc_write_flush]
     else []).
Proof.
  destruct (Int.truthy available) eqn:Hav.
  - apply cdc_task_available, Hav.
  - unfold cdc_task. rewrite Hav. reflexivity.
Qed.

Lemma led_blinking_task_spec millis connected st :
  led_blinking_task millis connected st
  = if Int.u32 (millis - start_ms st) <? blink_interval_ms st
    then (tt, st, [])
    else (tt,
          {| system_ticks := system_ticks st;
             blink_interval_ms := blink_interval_ms st;
             start_ms := Int.u32 (start_ms st + blink_interval_ms st);
             led_state := negb (led_state st);
             count := if connected then Int.s32 (count st + 1) else count st |},
          ev_leds_out_write (Z.b2z (led_state st))
          :: if connected
             then [ev_tud_cdc_write_str (sprintf_hello (count st));
                   ev_tud_cdc_write_flush]
             else []).
Proof.
  destruct st as [ticks interval start led cnt].
  unfold led_blinking_task, bind, get.
  cbn [start_ms blink_interval_ms led_state count system_ticks].
  destruct (Int.u32 (millis - start) <? interval); [reflexivity|].
  destruct connected, led; reflexivity.
Qed.

Lemma button_watch_spec cfg button_raw st :
  button_watch cfg button_raw st
  = (tt, st,
     if Int.truthy (Z.land (Int.s32 button_raw) (BUTTON_A_HOLD cfg))
     then [ev_reboot_ctrl_write 0xac] else []).
Proof.
  unfold button_watch.
  destruct (Int.truthy (Z.land (Int.s32 button_raw) (BUTTON_A_HOLD cfg)));
    reflexivity.
Qed.

Lemma tud_task_run cfg cbs st :
  tud_task cbs st = run cfg (map a_callback cbs) st.
Proof.
  revert st. induction cbs as [|cb cbs IH]; intros st; [reflexivity|].
  cbn [tud_task map run run_action]. unfold bind.
  destruct (run_callback cb st) as [[[] st1] t1]. rewrite IH. reflexivity.
Qed.

(* ------------------------------------------------------------------ *)
(** ** Sessions *)

Lemma run_nil cfg st : run cfg [] st = (tt, st, []).
Proof. reflexivity. Qed.

Lemma state_of_run_cons cfg a acts st :
  state_of (run cfg (a :: acts) st)
  = state_of (run cfg acts (state_of (run_action cfg a st))).
Proof. cbn [run]. apply state_of_seq. Qed.

Lemma trace_of_run_cons cfg a acts st :
  trace_of (run cfg (a :: acts) st)
  = trace_of (run_action cfg a st)
    ++ trace_of (run cfg acts (state_of (run_action cfg a st))).
Proof. cbn [run]. apply trace_of_seq. Qed.

Lemma state_of_run_app cfg acts1 acts2 st :
  state_of (run cfg (acts1 ++ acts2) st)
  = state_of (run cfg acts2 (state_of (run cfg acts1 st))).
Proof.
  revert st. induction acts1 as [|a acts1 IH]; intros st; [reflexivity|].
  rewrite <- app_comm_cons, !state_of_run_cons. apply IH.
Qed.

Lemma trace_of_run_app cfg acts1 acts2 st :
  trace_of (run cfg (acts1 ++ acts2) st)
  = trace_of (run cfg acts1 st)
    ++ trace_of (run cfg acts2 (state_of (run cfg acts1 st))).
Proof.
  revert st. induction acts1 as [|a acts1 IH]; intros st; [reflexivity|].
  rewrite <- app_comm_cons, !trace_of_run_cons, state_of_run_cons, IH.
  apply app_assoc.
Qed.

(** One loop iteration is the session of its actions. *)
Lemma main_loop_body_run cfg i st :
  main_loop_body cfg i st = run cfg (loop_actions i) st.
Proof.
  apply eq_sym, fw_unit_ext.
  - unfold loop_actions, main_loop_body.
    rewrite state_of_run_app, !state_of_run_cons, !state_of_seq.
    rewrite <- tud_task_run. reflexivity.
  - unfold loop_actions, main_loop_body.
    rewrite trace_of_run_app, !trace_of_run_cons.
    rewrite !trace_of_seq, <- tud_task_run.
    cbn [run_action]. rewrite run_nil. cbn [trace_of snd].
    rewrite app_nil_r. reflexivity.
Qed.

(** Effect of one action on the tick counter. *)
Lemma run_action_ticks cfg a st :
  0 <= TIMER0_INTERRUPT cfg < 32 ->
  system_ticks (state_of (run_action cfg a st))
  = if is_timer_interrupt cfg a
    then Int.u32 (system_ticks st + 1) else system_ticks st.
Proof.
  intros HT. destruct a as [p m|cb|av d s|ms c|b]; cbn [run_action is_timer_interrupt].
  - apply isr_ticks, HT.
  - rewrite run_callback_spec. destruct (event_of_callback cb); reflexivity.
  - rewrite cdc_task_spec. reflexivity.
  - rewrite led_blinking_task_spec.
    destruct (Int.u32 (ms - start_ms st) <? blink_interval_ms st); reflexivity.
  - rewrite button_watch_spec. reflexivity.
Qed.

(** Timer acknowledges written by one action. *)
Lemma run_action_acks cfg a st :
  0 <= TIMER0_INTERRUPT cfg < 32 ->
  count_events is_timer_ack (trace_of (run_action cfg a st))
  = if is_timer_interrupt cfg a then 1%nat else 0%nat.
Proof.
  intros HT. unfold count_events.
  destruct a as [p m|cb|av d s|ms c|b]; cbn [run_action is_timer_interrupt].
  - rewrite (isr_acks cfg HT). destruct (timer_bit_set cfg p m); reflexivity.
  - rewrite run_callback_spec. reflexivity.
  - rewrite cdc_task_spec. destruct (Int.truthy av); reflexivity.
  - rewrite led_blinking_task_spec.
    destruct (Int.u32 (ms - start_ms st) <? blink_interval_ms st);
      [reflexivity|]. destruct c; reflexivity.
  - rewrite button_watch_spec.
    destruct (Int.truthy (Z.land (Int.s32 b) (BUTTON_A_HOLD cfg))); reflexivity.
Qed.

Lemma run_ticks cfg acts : forall st,
  0 <= TIMER0_INTERRUPT cfg < 32 ->
  0 <= system_ticks st < Int.modulus ->
  system_ticks (state_of (run cfg acts st))
  = Int.u32 (system_ticks st + Z.of_nat (timer_interrupts cfg acts)).
Proof.
  unfold timer_interrupts.
  induction acts as [|a acts IH]; intros st HT Hr.
  - cbn. rewrite Z.add_0_r, IntFacts.u32_small by exact Hr. reflexivity.
  - rewrite state_of_run_cons.
    pose proof (run_action_ticks cfg a st HT) as Ha.
    cbn [filter]. destruct (is_timer_interrupt cfg a).
    + rewrite IH; [|exact HT|rewrite Ha; apply IntFacts.u32_range].
      rewrite Ha, IntFacts.u32_add_l. f_equal. cbn [List.length]. lia.
    + rewrite IH; [|exact HT|rewrite Ha; exact Hr].
      rewrite Ha. reflexivity.
Qed.

Lemma run_acks cfg acts : forall st,
  0 <= TIMER0_INTERRUPT cfg < 32 ->
  count_events is_timer_ack (trace_of (run cfg acts st))
  = timer_interrupts cfg acts.
Proof.
  unfold timer_interrupts.
  induction acts as [|a acts IH]; intros st HT; [reflexivity|].
  rewrite trace_of_run_cons, count_events_app, IH by exact HT.
  rewrite run_action_acks by exact HT.
  cbn [filter]. destruct (is_timer_interrupt cfg a); reflexivity.
Qed.

Lemma timer_interrupts_back_to_back cfg irqs :
  Forall (fun pm => timer_bit_set cfg (fst pm) (snd pm) = true) irqs ->
  timer_interrupts cfg (back_to_back irqs) = List.length irqs.
Proof.
  unfold timer_interrupts, back_to_back.
  induction 1 as [|pm irqs Hpm _ IH]; [reflexivity|].
  cbn [map filter is_timer_interrupt]. rewrite Hpm. cbn [List.length].
  rewrite IH. reflexivity.
Qed.

(** C1.  Whenever [isr] runs with the timer bit set in (pending AND mask),
    [system_ticks] goes up by exactly 1 modulo 2^32 and the timer
    acknowledge register is written (once, with 1).  Hence over any
    session [system_ticks] goes up by exactly the number N of such timer
    interrupts, modulo 2^32, and exactly N acknowledges are written:
    nothing else changes the counter, no tick is lost and none is counted
    twice.  In particular N timer interrupts delivered back to back, with
    no loop-body step between them, add exactly N. *)
Theorem isr_counts_every_timer_interrupt cfg st :
  0 <= TIMER0_INTERRUPT cfg < 32 ->
  0 <= system_ticks st < Int.modulus ->
  (forall pending mask,
     timer_bit_set cfg pending mask = true ->
     system_ticks (state_of (isr cfg pending mask st))
     = Int.u32 (system_ticks st + 1)
     /\ filter is_timer_ack (trace_of (isr cfg pending mask st))
        = [ev_timer0_ev_pending_write 1])
  /\ (forall acts,
        system_ticks (state_of (run cfg acts st))
        = Int.u32 (system_ticks st + Z.of_nat (timer_interrupts cfg acts))
        /\ count_events is_timer_ack (trace_of (run cfg acts st))
           = timer_interrupts cfg acts)
  /\ (forall irqs,
        Forall (fun pm => timer_bit_set cfg (fst pm) (snd pm) = true) irqs ->
        system_ticks (state_of (run cfg (back_to_back irqs) st))
        = Int.u32 (system_ticks st + Z.of_nat (List.length irqs))
        /\ count_events is_timer_ack (trace_of (run cfg (back_to_back irqs) st))
           = List.length irqs).
Proof.
  intros HT Hr. split; [|split].
  - intros pending mask Hbit.
    rewrite isr_ticks, (isr_acks cfg HT), Hbit by exact HT. split; reflexivity.
  - intros acts. split; [apply run_ticks; assumption | apply run_acks, HT].
  - intros irqs Hall.
    rewrite run_ticks, run_acks by assumption.
    rewrite (timer_interrupts_back_to_back cfg irqs Hall). split; reflexivity.
Qed.

Lemma isr_counts_every_timer_interrupt_witness :
  (system_ticks (state_of (isr sample_board 2 3 (power_on 4294967295))) = 0
   /\ filter is_timer_ack (trace_of (isr sample_board 2 3 (power_on 4294967295)))
      = [ev_timer0_ev_pending_write 1])
  /\ system_ticks
       (state_of (run sample_board (back_to_back [(2, 2); (18, 22); (3, 3)])
                      (power_on 4294967295)))
     = 2.
Proof.
  destruct (isr_counts_every_timer_interrupt sample_board (power_on 4294967295))
    as (Hone & _ & Hmany).
  - cbn. lia.
  - cbn. unfold Int.modulus. lia.
  - split.
    + apply (Hone 2 3). reflexivity.
    + destruct (Hmany [(2, 2); (18, 22); (3, 3)]) as [Hticks _].
      * repeat constructor.
      * exact Hticks.
Defined.

(* ------------------------------------------------------------------ *)
(** ** Connection state and blink period *)

Lemma run_action_blink cfg a st s :
  blink_interval_ms st = spec_blink_period s ->
  blink_interval_ms (state_of (run_action cfg a st))
  = spec_blink_period (spec_step s a).
Proof.
  intros Hs. destruct a as [p m|cb|av d stk|ms c|b]; cbn [run_action spec_step].
  - rewrite isr_spec. destruct (timer_line cfg p m); exact Hs.
  - rewrite run_callback_spec.
    destruct (event_of_callback cb) as [e|]; [|exact Hs].
    destruct e; reflexivity.
  - rewrite cdc_task_spec. exact Hs.
  - rewrite led_blinking_task_spec.
    destruct (Int.u32 (ms - start_ms st) <? blink_interval_ms st); exact Hs.
  - rewrite button_watch_spec. exact Hs.
Qed.

Lemma run_blink cfg acts : forall st s,
  blink_interval_ms st = spec_blink_period s ->
  blink_interval_ms (state_of (run cfg acts st))
  = spec_blink_period (spec_after s acts).
Proof.
  induction acts as [|a acts IH]; intros st s Hs; [exact Hs|].
  rewrite state_of_run_cons. cbn [spec_after fold_left].
  apply IH, run_action_blink, Hs.
Qed.

(** C5.  The blink period is a total function of the connection state:
    250 for NOT_MOUNTED, 1000 for MOUNTED, 2500 for SUSPENDED.  At power-on
    the state is NOT_MOUNTED and [blink_interval_ms] is 250.  From every
    state, the mount callback leaves MOUNTED / 1000, the unmount callback
    NOT_MOUNTED / 250, the suspend callback (either flag) SUSPENDED / 2500
    and the resume callback MOUNTED / 1000, so every (state, event) pair is
    handled; and after any session [blink_interval_ms] is the period of
    the connection state the spec's machine is in. *)
Theorem blink_period_follows_connection_state :
  (spec_blink_period NOT_MOUNTED = 250
   /\ spec_blink_period MOUNTED = 1000
   /\ spec_blink_period SUSPENDED = 2500)
  /\ (forall ticks0,
        spec_initial = NOT_MOUNTED
        /\ blink_interval_ms (power_on ticks0) = 250)
  /\ (forall st en,
        blink_interval_ms (state_of (tud_mount_cb st)) = 1000
        /\ blink_interval_ms (state_of (tud_umount_cb st)) = 250
        /\ blink_interval_ms (state_of (tud_suspend_cb en st)) = 2500
        /\ blink_interval_ms (state_of (tud_resume_cb st)) = 1000)
  /\ (forall s en,
        spec_transition s on_mount = MOUNTED
        /\ spec_transition s on_unmount = NOT_MOUNTED
        /\ spec_transition s (on_suspend en) = SUSPENDED
        /\ spec_transition s on_resume = MOUNTED)
  /\ (forall (s : conn_state) (e : conn_event) st,
        blink_interval_ms (state_of (run_callback (callback_of_event e) st))
        = spec_blink_period (spec_transition s e))
  /\ (forall cfg acts ticks0,
        blink_interval_ms (state_of (run cfg acts (power_on ticks0)))
        = spec_blink_period (spec_after spec_initial acts)).
Proof.
  split; [repeat split|].
  split; [repeat split|].
  split; [repeat split|].
  split; [repeat split|].
  split.
  - intros s e st. destruct e; reflexivity.
  - intros cfg acts ticks0. apply run_blink. reflexivity.
Qed.

(* ------------------------------------------------------------------ *)
(** ** The button watch *)

Lemma tud_task_spec cbs : forall st,
  trace_of (tud_task cbs st) = [].
Proof.
  induction cbs as [|cb cbs IH]; intros st; [reflexivity|].
  cbn [tud_task]. rewrite trace_of_seq, IH, run_callback_spec. reflexivity.
Qed.

Lemma main_loop_body_resets cfg i st :
  filter is_reboot_write (trace_of (main_loop_body cfg i st))
  = if Int.truthy (Z.land (Int.s32 (in_button_raw i)) (BUTTON_A_HOLD cfg))
    then [ev_reboot_ctrl_write 0xac] else [].
Proof.
  unfold main_loop_body.
  rewrite !trace_of_seq, !filter_app, tud_task_spec.
  rewrite cdc_task_spec, led_blinking_task_spec, button_watch_spec.
  cbn [trace_of snd state_of fst filter app].
  replace (filter is_reboot_write
             (if Int.truthy (in_available i)
              then [ev_tud_cdc_read ECHO_BUF_SIZE;
                    ev_tud_cdc_write
                      (firstn (Z.to_nat ECHO_BUF_SIZE) (in_delivered i));
                    ev_tud_cdc_write_flush]
              else [])) with (@nil hw_event)
    by (destruct (Int.truthy (in_available i)); reflexivity).
  set (st1 := state_of (tud_task (in_callbacks i) st)).
  destruct (Int.u32 (in_millis i - start_ms st1) <? blink_interval_ms st1);
    [|destruct (in_connected i)]; cbn [trace_of snd filter is_reboot_write app];
    destruct (Int.truthy _); reflexivity.
Qed.



(* ------------------------------------------------------------------ *)
(** ** The blinking task *)

Lemma gate_closed millis st :
  Int.u32 (millis - start_ms st) < blink_interval_ms st ->
  (Int.u32 (millis - start_ms st) <? blink_interval_ms st) = true.
Proof. apply Z.ltb_lt. Qed.

Lemma gate_open millis st :
  blink_interval_ms st <= Int.u32 (millis - start_ms st) ->
  (Int.u32 (millis - start_ms st) <? blink_interval_ms st) = false.
Proof. apply Z.ltb_ge. Qed.

(** C3, as the code has it.  In every invocation of [led_blinking_task] in
    which the elapsed-time gate passes, the indicator is written once and
    the greeting (the string with the current greeting counter, followed by
    a flush) is transmitted if and only if [tud_cdc_connected()] reports an
    active logical connection; the task does not look at the connection
    state.  Toggle and greeting sit behind the same gate: when the gate
    does not pass, neither happens. *)
Theorem greeting_iff_cdc_connected millis connected st :
  blink_interval_ms st <= Int.u32 (millis - start_ms st) ->
  let t := trace_of (led_blinking_task millis connected st) in
  t = ev_leds_out_write (Z.b2z (led_state st))
      :: (if connected
          then [ev_tud_cdc_write_str (sprintf_hello (count st));
                ev_tud_cdc_write_flush]
          else [])
  /\ (greetings t = [sprintf_hello (count st)] <-> connected = true)
  /\ (greetings t = [] <-> connected = false)
  /\ count_events is_led_write t = 1%nat
  /\ (forall millis',
        Int.u32 (millis' - start_ms st) < blink_interval_ms st ->
        trace_of (led_blinking_task millis' connected st) = []).
Proof.
  intros Hgate. cbv zeta.
  rewrite led_blinking_task_spec, (gate_open _ _ Hgate).
  cbn [trace_of snd].
  split; [reflexivity|].
  split; [|split; [|split]].
  - destruct connected; cbn; split; intros H; try reflexivity; discriminate.
  - destruct connected; cbn; split; intros H; try reflexivity; discriminate.
  - destruct connected; reflexivity.
  - intros millis' Hclosed.
    rewrite led_blinking_task_spec, (gate_closed _ _ Hclosed). reflexivity.
Qed.

Lemma greeting_iff_cdc_connected_witness :
  trace_of (led_blinking_task 1000 true (mk_fw_state 1000 1000 0 false 0))
  = [ev_leds_out_write 0; ev_tud_cdc_write_str (sprintf_hello 0);
     ev_tud_cdc_write_flush]
  /\ trace_of (led_blinking_task 1000 false (mk_fw_state 1000 1000 0 false 0))
     = [ev_leds_out_write 0].
Proof.
  split.
  - apply (greeting_iff_cdc_connected 1000 true (mk_fw_state 1000 1000 0 false 0)).
    cbn. discriminate.
  - apply (greeting_iff_cdc_connected 1000 false (mk_fw_state 1000 1000 0 false 0)).
    cbn. discriminate.
Defined.

(** C3, as the spec words it, fails: at power-on the connection state is
    NOT_MOUNTED (period 250, not 1000); once 250 ticks have elapsed and
    the interface reports a logical connection, the greeting is sent. *)
Lemma greeting_sent_while_not_mounted :
  blink_interval_ms (power_on 0) = spec_blink_period NOT_MOUNTED
  /\ blink_interval_ms (power_on 0) <> spec_blink_period MOUNTED
  /\ blink_interval_ms (power_on 0) <= Int.u32 (250 - start_ms (power_on 0))
  /\ greetings (trace_of (led_blinking_task 250 true (power_on 0)))
     = [sprintf_hello 0]
  /\ ~ (greetings (trace_of (led_blinking_task 250 true (power_on 0))) <> []
        <-> blink_interval_ms (power_on 0) = BLINK_MOUNTED /\ true = true).
Proof.
  split; [reflexivity|].
  split; [discriminate|].
  split; [cbn; discriminate|].
  split; [reflexivity|].
  intros [H _].
  assert (Hm : blink_interval_ms (power_on 0) = BLINK_MOUNTED /\ true = true)
    by (apply H; discriminate).
  destruct Hm as [Hm _]. discriminate Hm.
Qed.

Lemma led_blinking_iter_cons millis connected samples st :
  led_blinking_iter ((millis, connected) :: samples) st
  = (led_blinking_task millis connected ;; led_blinking_iter samples) st.
Proof. reflexivity. Qed.

(** Elapsed time seen right after a toggle: what was elapsed, less one
    period.  The timestamp is not moved to the clock value. *)
Lemma elapsed_after_toggle millis start period :
  0 <= period <= Int.u32 (millis - start) ->
  Int.u32 (millis - Int.u32 (start + period))
  = Int.u32 (millis - start) - period.
Proof.
  intros Hp.
  pose proof (IntFacts.u32_range (millis - start)) as Hr.
  rewrite <- (IntFacts.u32_small (Int.u32 (millis - start) - period)) by lia.
  unfold Int.u32.
  rewrite Zminus_mod_idemp_r, Zminus_mod_idemp_l.
  f_equal. lia.
Qed.

(** Any number of invocations, whatever clock values they observe, leave
    the period alone and move the timestamp by one period per toggle. *)
Lemma led_blinking_iter_stamp samples : forall st,
  0 <= start_ms st < Int.modulus ->
  blink_interval_ms (state_of (led_blinking_iter samples st))
  = blink_interval_ms st
  /\ start_ms (state_of (led_blinking_iter samples st))
     = Int.u32 (start_ms st
                + Z.of_nat (count_events is_led_write
                              (trace_of (led_blinking_iter samples st)))
                  * blink_interval_ms st).
Proof.
  induction samples as [|[millis connected] samples IH]; intros st Hr.
  - cbn. rewrite Z.add_0_r, IntFacts.u32_small by exact Hr. split; reflexivity.
  - rewrite led_blinking_iter_cons, state_of_seq, trace_of_seq, count_events_app.
    rewrite led_blinking_task_spec.
    destruct (Int.u32 (millis - start_ms st) <? blink_interval_ms st).
    + cbn [state_of trace_of fst snd]. apply IH, Hr.
    + cbn [state_of trace_of fst snd].
      match goal with
      | |- context [led_blinking_iter samples ?s] => set (st1 := s)
      end.
      destruct (IH st1) as [IHp IHs].
      { apply IntFacts.u32_range. }
      rewrite IHp, IHs. cbn [blink_interval_ms start_ms st1].
      split; [reflexivity|].
      rewrite IntFacts.u32_add_l.
      replace (count_events is_led_write
                 (ev_leds_out_write (Z.b2z (led_state st))
                  :: (if connected
                      then [ev_tud_cdc_write_str (sprintf_hello (count st));
                            ev_tud_cdc_write_flush]
                      else [])))
        with 1%nat by (destruct connected; reflexivity).
      f_equal. lia.
Qed.

(** C6.  In every invocation of [led_blinking_task]: when the unsigned
    32-bit difference between the clock and the last-toggle timestamp is
    below the blink period, nothing happens (state unchanged, no outside
    call); otherwise the timestamp advances by exactly one blink period,
    not to the clock value, so the elapsed time carried over is what was
    elapsed less one period, and over any run of invocations the timestamp
    is the initial one plus one period per toggle (modulo 2^32): toggle
    timestamps are spaced by exactly the period, without drift, however
    late an invocation comes. *)
Theorem led_blinking_task_advances_by_period millis connected st :
  (Int.u32 (millis - start_ms st) < blink_interval_ms st ->
   led_blinking_task millis connected st = (tt, st, []))
  /\ (blink_interval_ms st <= Int.u32 (millis - start_ms st) ->
      let st' := state_of (led_blinking_task millis connected st) in
      start_ms st' = Int.u32 (start_ms st + blink_interval_ms st)
      /\ blink_interval_ms st' = blink_interval_ms st
      /\ led_state st' = negb (led_state st)
      /\ (0 <= blink_interval_ms st ->
          Int.u32 (millis - start_ms st')
          = Int.u32 (millis - start_ms st) - blink_interval_ms st))
  /\ (forall samples,
        0 <= start_ms st < Int.modulus ->
        start_ms (state_of (led_blinking_iter samples st))
        = Int.u32 (start_ms st
                   + Z.of_nat (count_events is_led_write
                                 (trace_of (led_blinking_iter samples st)))
                     * blink_interval_ms st)).
Proof.
  split; [|split].
  - intros Hclosed.
    rewrite led_blinking_task_spec, (gate_closed _ _ Hclosed). reflexivity.
  - intros Hopen. cbv zeta.
    rewrite led_blinking_task_spec, (gate_open _ _ Hopen).
    cbn [state_of fst snd start_ms blink_interval_ms led_state].
    repeat split. intros Hp. apply elapsed_after_toggle. lia.
  - intros samples Hr. apply led_blinking_iter_stamp, Hr.
Qed.

Lemma led_blinking_task_advances_by_period_witness :
  led_blinking_task 999 true (mk_fw_state 999 1000 0 false 0)
  = (tt, mk_fw_state 999 1000 0 false 0, [])
  /\ start_ms (state_of (led_blinking_task 1700 true
                           (mk_fw_state 1700 1000 0 false 0))) = 1000
  /\ start_ms
       (state_of (led_blinking_iter
                    [(999, true); (1700, false); (1999, true); (2000, true)]
                    (mk_fw_state 0 1000 0 false 0)))
     = Int.u32 (0 + Z.of_nat
                      (count_events is_led_write
                         (trace_of
                            (led_blinking_iter
                               [(999, true); (1700, false); (1999, true);
                                (2000, true)]
                               (mk_fw_state 0 1000 0 false 0)))) * 1000).
Proof.
  split; [|split].
  - apply (led_blinking_task_advances_by_period
             999 true (mk_fw_state 999 1000 0 false 0)).
    reflexivity.
  - apply (led_blinking_task_advances_by_period
             1700 true (mk_fw_state 1700 1000 0 false 0)).
    cbn. discriminate.
  - apply (led_blinking_task_advances_by_period
             0 true (mk_fw_state 0 1000 0 false 0)).
    cbn. unfold Int.modulus. lia.
Defined.

Example no_drift_when_late :
  map start_ms
    [state_of (led_blinking_iter [(1700, false)] (mk_fw_state 0 1000 0 false 0));
     state_of (led_blinking_iter [(1700, false); (1999, false)]
                                 (mk_fw_state 0 1000 0 false 0));
     state_of (led_blinking_iter [(1700, false); (1999, false); (2000, false)]
                                 (mk_fw_state 0 1000 0 false 0))]
  = [1000; 1000; 2000].
Proof. reflexivity. Qed.

(* ------------------------------------------------------------------ *)
(** ** The greeting counter *)

Lemma sprintf_hello_u32 a b :
  Int.u32 a = Int.u32 b -> sprintf_hello a = sprintf_hello b.
Proof. unfold sprintf_hello, format_u. intros ->. reflexivity. Qed.

Lemma until_cr_digits d :
  until_cr (NilEmpty.string_of_uint d ++ CRLF)
  = (NilEmpty.string_of_uint d, CRLF).
Proof.
  induction d as [|d IH|d IH|d IH|d IH|d IH|d IH|d IH|d IH|d IH|d IH];
    [reflexivity|..];
    cbn [NilEmpty.string_of_uint append until_cr];
    change (is_cr _) with false; cbv iota; rewrite IH; reflexivity.
Qed.

Lemma string_of_N_nonnil n :
  NilZero.string_of_uint (N.to_uint n) = NilEmpty.string_of_uint (N.to_uint n)
  /\ N.to_uint n <> Decimal.Nil.
Proof.
  assert (Hn : N.to_uint n <> Decimal.Nil).
  { destruct n as [|p]; [discriminate|]. apply DecimalPos.Unsigned.to_uint_nonnil. }
  split; [|exact Hn].
  destruct (N.to_uint n); [contradiction|reflexivity..].
Qed.

(** The counter value can be read back from a greeting: it is the
    argument of [sprintf], as an unsigned 32-bit number. *)
Lemma greeting_value_sprintf_hello v :
  greeting_value (sprintf_hello v) = Some (Int.u32 v).
Proof.
  unfold greeting_value, sprintf_hello, format_u.
  cbn [append strip_prefix Ascii.eqb Bool.eqb].
  set (n := Z.to_N (Int.u32 v)).
  destruct (string_of_N_nonnil n) as [Hs Hn].
  rewrite Hs, until_cr_digits, String.eqb_refl, <- Hs.
  rewrite NilZero.usu by exact Hn.
  cbn [option_map]. rewrite DecimalN.Unsigned.of_to.
  subst n. rewrite Z2N.id by apply IntFacts.u32_range. reflexivity.
Qed.

(** One action emits at most one greeting; when it does, the greeting
    carries the counter and the counter moves on by one. *)
Lemma run_action_greeting cfg a st :
  (greetings (trace_of (run_action cfg a st)) = []
   /\ count (state_of (run_action cfg a st)) = count st)
  \/ (greetings (trace_of (run_action cfg a st)) = [sprintf_hello (count st)]
      /\ count (state_of (run_action cfg a st)) = Int.s32 (count st + 1)
      /\ count_events is_led_write (trace_of (run_action cfg a st)) = 1%nat).
Proof.
  destruct a as [p m|cb|av d stk|ms c|b]; cbn [run_action].
  - left. rewrite isr_spec.
    destruct (usb_line p m), (timer_line cfg p m); split; reflexivity.
  - left. rewrite run_callback_spec.
    destruct (event_of_callback cb); split; reflexivity.
  - left. rewrite cdc_task_spec. destruct (Int.truthy av); split; reflexivity.
  - rewrite led_blinking_task_spec.
    destruct (Int.u32 (ms - start_ms st) <? blink_interval_ms st);
      [left; split; reflexivity|].
    destruct c; [right; repeat split|left; split; reflexivity].
  - left. rewrite button_watch_spec.
    destruct (Int.truthy (Z.land (Int.s32 b) (BUTTON_A_HOLD cfg)));
      split; reflexivity.
Qed.

Lemma u32_s32_add x k : Int.u32 (Int.s32 x + k) = Int.u32 (x + k).
Proof.
  rewrite <- IntFacts.u32_add_l, IntFacts.u32_s32, IntFacts.u32_add_l.
  reflexivity.
Qed.

Lemma run_greetings cfg acts : forall st,
  let r := run cfg acts st in
  let n := List.length (greetings (trace_of r)) in
  greetings (trace_of r)
  = map (fun k => sprintf_hello (count st + Z.of_nat k)) (seq 0 n)
  /\ Int.u32 (count (state_of r)) = Int.u32 (count st + Z.of_nat n)
  /\ (n <= count_events is_led_write (trace_of r))%nat.
Proof.
  induction acts as [|a acts IH]; intros st; cbv zeta.
  - rewrite run_nil. cbn. rewrite Z.add_0_r. repeat split. lia.
  - rewrite trace_of_run_cons, state_of_run_cons, greetings_app, count_events_app.
    specialize (IH (state_of (run_action cfg a st))). cbv zeta in IH.
    destruct IH as (IHg & IHc & IHl).
    destruct (run_action_greeting cfg a st) as [[Hg Hc]|(Hg & Hc & Hl)];
      rewrite Hg; rewrite Hc in IHg, IHc.
    + cbn [app]. split; [exact IHg|]. split; [exact IHc|]. lia.
    + cbn [app List.length seq map].
      split; [|split].
      * rewrite Z.add_0_r. f_equal.
        rewrite <- seq_shift, map_map.
        etransitivity; [exact IHg|].
        apply map_ext. intros k. apply sprintf_hello_u32.
        rewrite u32_s32_add. f_equal. lia.
      * rewrite IHc, u32_s32_add. f_equal. lia.
      * lia.
Qed.

(** C10.  The greeting counter moves only when a greeting is emitted.
    Over a whole device session from power-on (any interleaving of
    interrupts, callbacks and tasks) the greetings sent are, in order,
    those for 0, 1, 2, ..., n-1 (as [%u] prints them, that is modulo
    2^32), with no gap and no repetition, even though the indicator may
    have toggled more often than greetings were sent; the counter ends at
    the number of greetings sent. *)
Theorem greeting_counter_consecutive cfg acts ticks0 :
  let r := run cfg acts (power_on ticks0) in
  let n := List.length (greetings (trace_of r)) in
  greetings (trace_of r) = map (fun k => sprintf_hello (Z.of_nat k)) (seq 0 n)
  /\ map greeting_value (greetings (trace_of r))
     = map (fun k => Some (Int.u32 (Z.of_nat k))) (seq 0 n)
  /\ (Z.of_nat n <= Int.modulus ->
      map greeting_value (greetings (trace_of r))
      = map (fun k => Some (Z.of_nat k)) (seq 0 n))
  /\ Int.u32 (count (state_of r)) = Int.u32 (Z.of_nat n)
  /\ (n <= count_events is_led_write (trace_of r))%nat.
Proof.
  cbv zeta.
  destruct (run_greetings cfg acts (power_on ticks0)) as (Hg & Hc & Hl).
  cbv zeta in Hg, Hc, Hl. cbn [count power_on Z.add] in Hg, Hc.
  set (n := List.length (greetings (trace_of (run cfg acts (power_on ticks0)))))
    in *.
  assert (Hv : map greeting_value
                 (greetings (trace_of (run cfg acts (power_on ticks0))))
               = map (fun k => Some (Int.u32 (Z.of_nat k))) (seq 0 n)).
  { rewrite Hg, map_map. apply map_ext. intros k.
    apply greeting_value_sprintf_hello. }
  split; [exact Hg|]. split; [exact Hv|].
  split; [|split; [exact Hc|exact Hl]].
  intros Hn. rewrite Hv. apply map_ext_in. intros k Hk.
  apply in_seq in Hk. rewrite IntFacts.u32_small by lia. reflexivity.
Qed.

Lemma greeting_counter_consecutive_witness :
  map greeting_value
    (greetings
       (trace_of
          (run sample_board
               [a_callback cb_mount;
                a_led_blinking_task 1000 true;
                a_isr 2 2;
                a_led_blinking_task 2000 false;
                a_led_blinking_task 3000 true;
                a_callback (cb_suspend true);
                a_led_blinking_task 5500 true]
               (power_on 0))))
  = [Some 0; Some 1; Some 2].
Proof.
  destruct (greeting_counter_consecutive
              sample_board
              [a_callback cb_mount;
               a_led_blinking_task 1000 true;
               a_isr 2 2;
               a_led_blinking_task 2000 false;
               a_led_blinking_task 3000 true;
               a_callback (cb_suspend true);
               a_led_blinking_task 5500 true]
              0) as (_ & _ & Hexact & _).
  apply Hexact. vm_compute. discriminate.
Defined.

(* ------------------------------------------------------------------ *)
(** ** The interrupt dispatcher, bit by bit *)

Lemma usb_line_bit pending mask :
  usb_line pending mask = usb_bit_set pending mask.
Proof.
  unfold usb_line, usb_bit_set, USB_INTERRUPT.
  rewrite IntFacts.truthy_land_bit by lia.
  unfold Int.u32, Int.modulus. apply Z.mod_pow2_bits_low. lia.
Qed.

(** X1.  [isr] services exactly the sources that are both pending and
    enabled: it calls [tud_int_handler(0)] when bit 4 of (pending AND mask)
    is set, then counts and acknowledges a tick when the timer bit is set,
    both in one invocation when both are set.  Every other bit is ignored:
    with neither bit set, and in particular with an all-zero mask, [isr]
    changes nothing and calls nothing. *)
Theorem isr_services_enabled_sources cfg pending mask st :
  0 <= TIMER0_INTERRUPT cfg < 32 ->
  isr cfg pending mask st
  = (tt,
     (if timer_bit_set cfg pending mask then tick st else st),
     (if usb_bit_set pending mask then [ev_tud_int_handler 0] else [])
     ++ (if timer_bit_set cfg pending mask
         then [ev_timer0_ev_pending_write 1] else []))
  /\ (usb_bit_set pending mask = false ->
      timer_bit_set cfg pending mask = false ->
      isr cfg pending mask st = (tt, st, []))
  /\ isr cfg pending 0 st = (tt, st, []).
Proof.
  intros HT.
  assert (Hspec : forall p m,
            isr cfg p m st
            = (tt,
               (if timer_bit_set cfg p m then tick st else st),
               (if usb_bit_set p m then [ev_tud_int_handler 0] else [])
               ++ (if timer_bit_set cfg p m
                   then [ev_timer0_ev_pending_write 1] else []))).
  { intros p m.
    rewrite isr_spec, (timer_line_bit cfg HT), usb_line_bit. reflexivity. }
  split; [apply Hspec|]. split.
  - intros Hu Ht. rewrite Hspec, Hu, Ht. reflexivity.
  - rewrite Hspec. unfold usb_bit_set, timer_bit_set.
    rewrite Z.land_0_r, !Z.bits_0. reflexivity.
Qed.

Lemma isr_services_enabled_sources_witness :
  isr sample_board 0x13 0x16 (power_on 9)
  = (tt, tick (power_on 9),
     [ev_tud_int_handler 0; ev_timer0_ev_pending_write 1]).
Proof.
  destruct (isr_services_enabled_sources sample_board 0x13 0x16 (power_on 9))
    as [Hspec _].
  - cbn. lia.
  - exact Hspec.
Defined.

(* ------------------------------------------------------------------ *)
(** ** What [tud_task] leaves behind *)

Lemma run_callback_period cb st :
  run_callback cb st
  = (tt,
     {| system_ticks := system_ticks st;
        blink_interval_ms :=
          match callback_period cb with
          | Some p => p
          | None => blink_interval_ms st
          end;
        start_ms := start_ms st;
        led_state := led_state st;
        count := count st |},
     []).
Proof.
  destruct st, cb as [| |en| |itf [|] rts|itf]; reflexivity.
Qed.

Lemma tud_task_closed_form cbs : forall st,
  tud_task cbs st
  = (tt,
     {| system_ticks := system_ticks st;
        blink_interval_ms := last_period (blink_interval_ms st) cbs;
        start_ms := start_ms st;
        led_state := led_state st;
        count := count st |},
     []).
Proof.
  induction cbs as [|cb cbs IH]; intros st.
  - destruct st. reflexivity.
  - cbn [tud_task last_period]. unfold bind.
    rewrite run_callback_period, IH. reflexivity.
Qed.

Lemma last_period_app old cbs cbs' :
  last_period old (cbs ++ cbs') = last_period (last_period old cbs) cbs'.
Proof.
  revert old. induction cbs as [|cb cbs IH]; intros old; [reflexivity|].
  cbn [app last_period]. apply IH.
Qed.

Lemma last_period_silent old cbs :
  Forall (fun cb => callback_period cb = None) cbs ->
  last_period old cbs = old.
Proof.
  induction 1 as [|cb cbs Hcb _ IH]; [reflexivity|].
  cbn [last_period]. rewrite Hcb. exact IH.
Qed.

(** X2.  Whatever callbacks the stack invokes from [tud_task()], in
    whatever number and order, they make no outside call and change no
    variable but [blink_interval_ms].  The last of the mount, unmount,
    suspend and resume callbacks decides its value, whatever came before;
    line-state and data-received callbacks after it change nothing. *)
Theorem tud_task_last_callback_wins cbs st :
  trace_of (tud_task cbs st) = []
  /\ (system_ticks (state_of (tud_task cbs st)) = system_ticks st
      /\ start_ms (state_of (tud_task cbs st)) = start_ms st
      /\ led_state (state_of (tud_task cbs st)) = led_state st
      /\ count (state_of (tud_task cbs st)) = count st)
  /\ (forall cb p,
        callback_period cb = Some p ->
        blink_interval_ms (state_of (tud_task (cbs ++ [cb]) st)) = p)
  /\ (forall cbs',
        Forall (fun cb => callback_period cb = None) cbs' ->
        tud_task (cbs ++ cbs') st = tud_task cbs st).
Proof.
  split; [rewrite tud_task_closed_form; reflexivity|].
  split; [rewrite tud_task_closed_form; repeat split|].
  split.
  - intros cb p Hp. rewrite tud_task_closed_form, last_period_app.
    cbn. rewrite Hp. reflexivity.
  - intros cbs' Hsilent.
    rewrite !tud_task_closed_form, last_period_app.
    rewrite (last_period_silent _ _ Hsilent). reflexivity.
Qed.

Lemma tud_task_last_callback_wins_witness :
  blink_interval_ms
    (state_of (tud_task ([cb_mount; cb_suspend true] ++ [cb_umount])
                        (power_on 0))) = 250
  /\ tud_task ([cb_mount] ++ [cb_cdc_rx 0; cb_cdc_line_state 0 true false])
              (power_on 0)
     = tud_task [cb_mount] (power_on 0).
Proof.
  split.
  - apply (tud_task_last_callback_wins [cb_mount; cb_suspend true] (power_on 0)).
    reflexivity.
  - apply (tud_task_last_callback_wins [cb_mount] (power_on 0)).
    repeat constructor.
Defined.

Example tud_task_suspend_resume_without_mount :
  blink_interval_ms
    (state_of (tud_task [cb_suspend false; cb_cdc_rx 0; cb_resume] (power_on 0)))
  = BLINK_MOUNTED.
Proof. reflexivity. Qed.

(* ------------------------------------------------------------------ *)
(** ** The echo buffer *)

(** X3.  [cdc_task] never sends what it did not receive: what it does is
    the same whatever the local buffer held before the read, the bytes it
    writes are the first bytes delivered, at most 64 of them, and it never
    changes a program variable. *)
Theorem cdc_task_writes_received_bytes_only
  available delivered stack stack' st :
  cdc_task available delivered stack st
  = cdc_task available delivered stack' st
  /\ state_of (cdc_task available delivered stack st) = st
  /\ bytes_written (trace_of (cdc_task available delivered stack st))
     = (if Int.truthy available
        then firstn (Z.to_nat ECHO_BUF_SIZE) delivered else [])
  /\ (List.length
        (bytes_written (trace_of (cdc_task available delivered stack st)))
      <= 64)%nat
  /\ (exists rest,
        delivered
        = bytes_written (trace_of (cdc_task available delivered stack st))
          ++ rest).
Proof.
  rewrite !cdc_task_spec. cbn [state_of trace_of fst snd].
  split; [reflexivity|]. split; [reflexivity|].
  destruct (Int.truthy available); cbn [bytes_written].
  - rewrite app_nil_r. split; [reflexivity|]. split.
    + rewrite length_firstn. apply Nat.le_min_l.
    + exists (skipn (Z.to_nat ECHO_BUF_SIZE) delivered).
      symmetry. apply firstn_skipn.
  - split; [reflexivity|]. split; [cbn; lia|].
    exists delivered. reflexivity.
Qed.

(* ------------------------------------------------------------------ *)
(** ** The loop of [main] *)

Lemma main_loop_body_state cfg i st :
  state_of (main_loop_body cfg i st)
  = state_of (led_blinking_task (in_millis i) (in_connected i)
                (state_of (tud_task (in_callbacks i) st))).
Proof.
  unfold main_loop_body.
  rewrite !state_of_seq, button_watch_spec, cdc_task_spec. reflexivity.
Qed.

Lemma main_loop_body_trace cfg i st :
  trace_of (main_loop_body cfg i st)
  = trace_of (cdc_task (in_available i) (in_delivered i) (in_stack i) st)
    ++ trace_of (led_blinking_task (in_millis i) (in_connected i)
                   (state_of (tud_task (in_callbacks i) st)))
    ++ trace_of (button_watch cfg (in_button_raw i) st).
Proof.
  unfold main_loop_body.
  rewrite !trace_of_seq, tud_task_spec.
  rewrite !button_watch_spec, !cdc_task_spec. reflexivity.
Qed.

Lemma main_loop_cons cfg i inputs st :
  main_loop cfg (i :: inputs) st
  = (main_loop_body cfg i ;; main_loop cfg inputs) st.
Proof. reflexivity. Qed.

Lemma main_state cfg inputs st :
  state_of (main cfg inputs st) = state_of (main_loop cfg inputs st).
Proof. unfold main. rewrite state_of_seq. reflexivity. Qed.

Lemma main_trace cfg inputs st :
  trace_of (main cfg inputs st)
  = [ev_irq_setmask 0; ev_irq_setie 1; ev_timer_init; ev_tusb_init]
    ++ trace_of (main_loop cfg inputs st).
Proof. unfold main. rewrite trace_of_seq. reflexivity. Qed.

Lemma led_blinking_task_ticks millis connected st :
  system_ticks (state_of (led_blinking_task millis connected st))
  = system_ticks st.
Proof.
  rewrite led_blinking_task_spec.
  destruct (Int.u32 (millis - start_ms st) <? blink_interval_ms st);
    reflexivity.
Qed.

Lemma led_blinking_task_filter p millis connected st :
  p (ev_leds_out_write (Z.b2z (led_state st))) = false ->
  p (ev_tud_cdc_write_str (sprintf_hello (count st))) = false ->
  p ev_tud_cdc_write_flush = false ->
  filter p (trace_of (led_blinking_task millis connected st)) = [].
Proof.
  intros Hl Hs Hf. rewrite led_blinking_task_spec.
  destruct (Int.u32 (millis - start_ms st) <? blink_interval_ms st);
    [reflexivity|].
  destruct connected; cbn [trace_of snd filter]; rewrite Hl, ?Hs, ?Hf;
    reflexivity.
Qed.

Lemma cdc_task_filter p available delivered stack st :
  p (ev_tud_cdc_read ECHO_BUF_SIZE) = false ->
  p (ev_tud_cdc_write (firstn (Z.to_nat ECHO_BUF_SIZE) delivered)) = false ->
  p ev_tud_cdc_write_flush = false ->
  filter p (trace_of (cdc_task available delivered stack st)) = [].
Proof.
  intros Hr Hw Hf. rewrite cdc_task_spec.
  destruct (Int.truthy available); cbn [trace_of snd filter];
    rewrite ?Hr, ?Hw, ?Hf; reflexivity.
Qed.

(** X4.  The loop of [main] never touches the tick counter and never
    acknowledges the timer: after any number of iterations [system_ticks]
    is what it was, and no write to the timer acknowledge register is in
    the trace.  The counter is written by [isr] alone. *)
Theorem main_never_writes_system_ticks cfg inputs : forall st,
  system_ticks (state_of (main cfg inputs st)) = system_ticks st
  /\ filter is_timer_ack (trace_of (main cfg inputs st)) = [].
Proof.
  intros st. rewrite main_state, main_trace, filter_app.
  cbn [filter is_timer_ack app]. revert st.
  induction inputs as [|i inputs IH]; intros st; [split; reflexivity|].
  rewrite main_loop_cons, state_of_seq, trace_of_seq, filter_app.
  destruct (IH (state_of (main_loop_body cfg i st))) as [IHs IHt].
  rewrite IHs, IHt, app_nil_r.
  rewrite main_loop_body_state, led_blinking_task_ticks.
  rewrite tud_task_closed_form. split; [reflexivity|].
  rewrite main_loop_body_trace, !filter_app.
  rewrite cdc_task_filter, led_blinking_task_filter by reflexivity.
  rewrite button_watch_spec.
  destruct (Int.truthy _); reflexivity.
Qed.

Lemma bytes_written_no_write t :
  filter is_cdc_write t = [] -> bytes_written t = [].
Proof.
  induction t as [|e t IH]; [reflexivity|].
  destruct e; cbn [filter is_cdc_write bytes_written]; try exact IH.
  discriminate.
Qed.

(** X5.  Over any number of loop iterations the bytes handed to
    [tud_cdc_write] are, in order, the bytes returned by the reads of the
    iterations that found data available, and nothing else: the echo
    neither drops, reorders nor invents bytes, and the greetings of the
    blinking task do not go through [tud_cdc_write]. *)
Theorem main_echoes_in_order cfg inputs : forall st,
  bytes_written (trace_of (main cfg inputs st)) = echoed inputs.
Proof.
  intros st. rewrite main_trace, bytes_written_app.
  cbn [bytes_written app]. revert st.
  induction inputs as [|i inputs IH]; intros st; [reflexivity|].
  rewrite main_loop_cons, trace_of_seq, bytes_written_app, IH.
  cbn [echoed]. f_equal.
  rewrite main_loop_body_trace, !bytes_written_app.
  rewrite (bytes_written_no_write (trace_of (led_blinking_task _ _ _)))
    by (apply led_blinking_task_filter; reflexivity).
  rewrite !cdc_task_spec, button_watch_spec. cbn [trace_of snd].
  destruct (Int.truthy (in_available i));
    destruct (Int.truthy (Z.land _ _)); cbn [bytes_written app];
    rewrite ?app_nil_r; reflexivity.
Qed.

(** X6.  Over any number of loop iterations the only value ever written to
    the reset control register is 0xac, once for each iteration whose
    button sample has a bit of [BUTTON_A_HOLD] set, and never from the
    tasks or from the callbacks. *)
Theorem main_resets_once_per_hold_iteration cfg inputs : forall st,
  filter is_reboot_write (trace_of (main cfg inputs st))
  = repeat (ev_reboot_ctrl_write 0xac) (hold_iterations cfg inputs).
Proof.
  intros st. rewrite main_trace, filter_app.
  cbn [filter is_reboot_write app]. revert st. unfold hold_iterations.
  induction inputs as [|i inputs IH]; intros st; [reflexivity|].
  rewrite main_loop_cons, trace_of_seq, filter_app, IH.
  rewrite main_loop_body_resets. cbn [filter]. unfold hold_sample at 2.
  destruct (Int.truthy (Z.land _ _)); reflexivity.
Qed.

(* ------------------------------------------------------------------ *)
(** ** The indicator *)

Lemma led_levels_app t1 t2 :
  led_levels (t1 ++ t2) = led_levels t1 ++ led_levels t2.
Proof.
  induction t1 as [|e t1 IH]; [reflexivity|].
  destruct e; cbn; rewrite IH; reflexivity.
Qed.

(** One action writes the indicator at most once; when it does, it writes
    the stored level and inverts it. *)
Lemma run_action_led cfg a st :
  (led_levels (trace_of (run_action cfg a st)) = []
   /\ led_state (state_of (run_action cfg a st)) = led_state st)
  \/ (led_levels (trace_of (run_action cfg a st)) = [Z.b2z (led_state st)]
      /\ led_state (state_of (run_action cfg a st)) = negb (led_state st)).
Proof.
  destruct a as [p m|cb|av d stk|ms c|b]; cbn [run_action].
  - left. rewrite isr_spec.
    destruct (usb_line p m), (timer_line cfg p m); split; reflexivity.
  - left. rewrite run_callback_period. split; reflexivity.
  - left. rewrite cdc_task_spec. destruct (Int.truthy av); split; reflexivity.
  - rewrite led_blinking_task_spec.
    destruct (Int.u32 (ms - start_ms st) <? blink_interval_ms st);
      [left; split; reflexivity|].
    right. destruct c; split; reflexivity.
  - left. rewrite button_watch_spec.
    destruct (Int.truthy (Z.land (Int.s32 b) (BUTTON_A_HOLD cfg)));
      split; reflexivity.
Qed.

(** X7.  Over any session the levels written to the indicator alternate,
    beginning with the stored level (0 after power-on): no level is ever
    written twice in a row, whatever happens between two toggles, and the
    stored level ends up inverted exactly when the number of writes is
    odd. *)
Theorem led_levels_alternate cfg acts : forall st,
  let r := run cfg acts st in
  let n := List.length (led_levels (trace_of r)) in
  led_levels (trace_of r) = alternating (led_state st) n
  /\ led_state (state_of r)
     = (if Nat.even n then led_state st else negb (led_state st)).
Proof.
  induction acts as [|a acts IH]; intros st; cbv zeta.
  - rewrite run_nil. split; reflexivity.
  - rewrite trace_of_run_cons, state_of_run_cons, led_levels_app.
    specialize (IH (state_of (run_action cfg a st))). cbv zeta in IH.
    destruct IH as [IHl IHs].
    destruct (run_action_led cfg a st) as [[Hl Hs]|[Hl Hs]];
      rewrite Hl; rewrite Hs in IHl, IHs.
    + cbn [app]. split; assumption.
    + cbn [app List.length alternating]. split.
      * f_equal. exact IHl.
      * rewrite IHs, Nat.even_succ, <- Nat.negb_even.
        destruct (Nat.even _), (led_state st); reflexivity.
Qed.

(* ------------------------------------------------------------------ *)
(** ** The elapsed-time gate *)

Lemma elapsed_across_wrap start d :
  0 <= d < Int.modulus ->
  Int.u32 (Int.u32 (start + d) - start) = d.
Proof.
  intros Hd. unfold Int.u32.
  rewrite Zminus_mod_idemp_l.
  replace (start + d - start) with d by lia.
  apply Z.mod_small, Hd.
Qed.

(** X8.  The gate of [led_blinking_task] measures elapsed time correctly
    across the wrap-around of the 32-bit clock: when the clock reads [d]
    ticks (0 <= d < 2^32) after the last-toggle timestamp, reduced modulo
    2^32, the task does nothing if [d] is below the period and toggles
    once if it is not, wherever the timestamp lies. *)
Theorem gate_survives_clock_wraparound d connected st :
  0 <= d < Int.modulus ->
  let millis := Int.u32 (start_ms st + d) in
  (d < blink_interval_ms st ->
   led_blinking_task millis connected st = (tt, st, []))
  /\ (blink_interval_ms st <= d ->
      led_levels (trace_of (led_blinking_task millis connected st))
      = [Z.b2z (led_state st)]
      /\ start_ms (state_of (led_blinking_task millis connected st))
         = Int.u32 (start_ms st + blink_interval_ms st)).
Proof.
  intros Hd. cbv zeta.
  rewrite led_blinking_task_spec, (elapsed_across_wrap _ _ Hd).
  split.
  - intros Hlt. apply Z.ltb_lt in Hlt. rewrite Hlt. reflexivity.
  - intros Hge. apply Z.ltb_ge in Hge. rewrite Hge.
    destruct connected; split; reflexivity.
Qed.

Lemma gate_survives_clock_wraparound_witness :
  led_blinking_task 149 true (mk_fw_state 149 250 4294967196 true 7)
  = (tt, mk_fw_state 149 250 4294967196 true 7, [])
  /\ start_ms (state_of (led_blinking_task
                           150 true (mk_fw_state 150 250 4294967196 true 7)))
     = 150.
Proof.
  split.
  - apply (gate_survives_clock_wraparound
             249 true (mk_fw_state 149 250 4294967196 true 7)).
    + unfold Int.modulus. lia.
    + cbn. lia.
  - apply (gate_survives_clock_wraparound
             250 true (mk_fw_state 150 250 4294967196 true 7)).
    + unfold Int.modulus. lia.
    + cbn. lia.
Defined.

Lemma led_blinking_iter_repeat_step millis connected k st :
  led_blinking_iter (repeat (millis, connected) (S k)) st
  = (led_blinking_task millis connected ;;
     led_blinking_iter (repeat (millis, connected) k)) st.
Proof. reflexivity. Qed.

(** X9.  A late task catches up one period per invocation.  Invoked [k]
    times while the clock reads the same value, with a positive period, the
    task toggles on each of the first invocations until fewer ticks than
    one period remain: the number of toggles is the smaller of [k] and the
    number of whole periods elapsed. *)
Theorem led_blinking_task_catches_up millis connected k : forall st,
  0 < blink_interval_ms st ->
  Z.of_nat (count_events is_led_write
              (trace_of (led_blinking_iter (repeat (millis, connected) k) st)))
  = Z.min (Z.of_nat k)
          (Int.u32 (millis - start_ms st) / blink_interval_ms st).
Proof.
  induction k as [|k IH]; intros st Hp.
  - cbn [repeat led_blinking_iter]. unfold ret, count_events. cbn.
    pose proof (IntFacts.u32_range (millis - start_ms st)) as Hr.
    assert (0 <= Int.u32 (millis - start_ms st) / blink_interval_ms st)
      by (apply Z.div_pos; lia).
    lia.
  - rewrite led_blinking_iter_repeat_step, trace_of_seq, count_events_app.
    rewrite led_blinking_task_spec.
    pose proof (IntFacts.u32_range (millis - start_ms st)) as Hr.
    destruct (Z.ltb_spec (Int.u32 (millis - start_ms st)) (blink_interval_ms st))
      as [Hlt|Hge]; cbn [state_of trace_of fst snd].
    + rewrite Nat2Z.inj_add, IH by exact Hp.
      rewrite Z.div_small by lia. unfold count_events. cbn. lia.
    + match goal with
      | |- context [led_blinking_iter _ ?s] => set (st1 := s)
      end.
      rewrite Nat2Z.inj_add, (IH st1) by exact Hp.
      cbn [start_ms blink_interval_ms st1].
      rewrite elapsed_after_toggle by lia.
      replace (Int.u32 (millis - start_ms st) - blink_interval_ms st)
        with (Int.u32 (millis - start_ms st) + (-1) * blink_interval_ms st)
        by lia.
      rewrite Z.div_add by lia.
      replace (count_events is_led_write
                 (ev_leds_out_write (Z.b2z (led_state st))
                  :: (if connected
                      then [ev_tud_cdc_write_str (sprintf_hello (count st));
                            ev_tud_cdc_write_flush]
                      else [])))
        with 1%nat by (destruct connected; reflexivity).
      lia.
Qed.

Lemma led_blinking_task_catches_up_witness :
  Z.of_nat (count_events is_led_write
              (trace_of (led_blinking_iter
                           (repeat (2600, false) 5)
                           (mk_fw_state 2600 1000 0 false 0))))
  = 2.
Proof.
  apply (led_blinking_task_catches_up
           2600 false 5 (mk_fw_state 2600 1000 0 false 0)).
  cbn. lia.
Defined.

(* ------------------------------------------------------------------ *)
(** ** Ranges of the variables *)

Lemma s32_range x : - Int.half_modulus <= Int.s32 x < Int.half_modulus.
Proof.
  unfold Int.s32.
  assert (H : 0 <= (x + Int.half_modulus) mod Int.modulus < Int.modulus)
    by (apply Z.mod_pos_bound; reflexivity).
  unfold Int.modulus, Int.half_modulus in *. lia.
Qed.

Lemma run_action_in_range cfg a st :
  in_range st -> in_range (state_of (run_action cfg a st)).
Proof.
  intros Hst. pose proof Hst as (Ht & Hb & Hs & Hc).
  destruct a as [p m|cb|av d stk|ms c|b]; cbn [run_action].
  - rewrite isr_spec.
    destruct (timer_line cfg p m); cbn [state_of fst snd]; [|exact Hst].
    split; [apply IntFacts.u32_range|].
    split; [exact Hb|]. split; [exact Hs|exact Hc].
  - rewrite run_callback_period. cbn [state_of fst snd].
    split; [exact Ht|]. split; [|split; [exact Hs|exact Hc]].
    cbn [blink_interval_ms].
    destruct cb; cbn [callback_period]; auto.
  - rewrite cdc_task_spec. exact Hst.
  - rewrite led_blinking_task_spec.
    destruct (Int.u32 (ms - start_ms st) <? blink_interval_ms st);
      cbn [state_of fst snd]; [exact Hst|].
    split; [exact Ht|]. split; [exact Hb|].
    split; [apply IntFacts.u32_range|].
    cbn [count]. destruct c; [apply s32_range|exact Hc].
  - rewrite button_watch_spec. exact Hst.
Qed.

(** X10.  Every session keeps the variables within their C types and the
    blink period among the three enumerators: from a state in which
    [system_ticks] and [start_ms] are below 2^32, [count] fits an [int] and
    [blink_interval_ms] is 250, 1000 or 2500, every state reached is such a
    state again.  So the period the gate compares with is never zero. *)
Theorem session_keeps_variables_in_range cfg acts : forall st,
  in_range st ->
  in_range (state_of (run cfg acts st))
  /\ 250 <= blink_interval_ms (state_of (run cfg acts st)) <= 2500.
Proof.
  assert (Hperiod : forall st, in_range st ->
                               250 <= blink_interval_ms st <= 2500).
  { intros st (_ & Hb & _).
    unfold BLINK_NOT_MOUNTED, BLINK_MOUNTED, BLINK_SUSPENDED in Hb. lia. }
  assert (Hrun : forall st, in_range st -> in_range (state_of (run cfg acts st))).
  { induction acts as [|a acts IH]; intros st Hst; [exact Hst|].
    rewrite state_of_run_cons. apply IH, run_action_in_range, Hst. }
  intros st Hst. split; [apply Hrun, Hst | apply Hperiod, Hrun, Hst].
Qed.

Lemma session_keeps_variables_in_range_witness :
  in_range (state_of (run sample_board
                          [a_isr 2 2; a_callback cb_mount;
                           a_led_blinking_task 1000 true]
                          (power_on 4294967295)))
  /\ 250 <= blink_interval_ms
              (state_of (run sample_board
                             [a_isr 2 2; a_callback cb_mount;
                              a_led_blinking_task 1000 true]
                             (power_on 4294967295))) <= 2500.
Proof.
  apply (session_keeps_variables_in_range
           sample_board
           [a_isr 2 2; a_callback cb_mount; a_led_blinking_task 1000 true]
           (power_on 4294967295)).
  unfold in_range, Int.modulus, Int.half_modulus. cbn.
  repeat split; lia.
Defined.

(* ------------------------------------------------------------------ *)
(** ** Writes and flushes *)

Lemma well_flushed_app_gen t2 t1 :
  (well_flushed t1 = true -> well_flushed (t1 ++ t2) = well_flushed t2)
  /\ (forall e, well_flushed (e :: t1) = true ->
                well_flushed (e :: t1 ++ t2) = well_flushed t2).
Proof.
  induction t1 as [|e' t1 [IH1 IH2]].
  - split; [reflexivity|].
    intros e He. destruct e; cbn in He |- *; try reflexivity; discriminate.
  - split; [apply IH2|].
    intros e He.
    destruct e; try (apply IH2; exact He);
      destruct e'; cbn in He |- *; try discriminate; apply IH1, He.
Qed.

Lemma well_flushed_app t1 t2 :
  well_flushed t1 = true -> well_flushed t2 = true ->
  well_flushed (t1 ++ t2) = true.
Proof.
  intros H1 H2. rewrite (proj1 (well_flushed_app_gen t2 t1) H1). exact H2.
Qed.

Lemma task_calls_app t1 t2 :
  task_calls (t1 ++ t2) = task_calls t1 ++ task_calls t2.
Proof. apply filter_app. Qed.

Lemma run_action_well_flushed cfg a st :
  well_flushed (task_calls (trace_of (run_action cfg a st))) = true.
Proof.
  destruct a as [p m|cb|av d stk|ms c|b]; cbn [run_action].
  - rewrite isr_spec. destruct (usb_line p m), (timer_line cfg p m); reflexivity.
  - rewrite run_callback_period. reflexivity.
  - rewrite cdc_task_spec. destruct (Int.truthy av); reflexivity.
  - rewrite led_blinking_task_spec.
    destruct (Int.u32 (ms - start_ms st) <? blink_interval_ms st);
      [reflexivity|]. destruct c; reflexivity.
  - rewrite button_watch_spec. destruct (Int.truthy _); reflexivity.
Qed.

Lemma run_well_flushed cfg acts : forall st,
  well_flushed (task_calls (trace_of (run cfg acts st))) = true.
Proof.
  induction acts as [|a acts IH]; intros st; [reflexivity|].
  rewrite trace_of_run_cons, task_calls_app.
  apply well_flushed_app; [apply run_action_well_flushed | apply IH].
Qed.

(** Preemption by the dispatcher leaves the calls of the tasks as they
    are. *)
Lemma preempted_task_calls t t' :
  preempted t t' -> task_calls t' = task_calls t.
Proof.
  induction 1 as [|e t t' _ IH|e t t' He _ IH]; [reflexivity| |].
  - unfold task_calls in *. cbn [filter]. rewrite IH. reflexivity.
  - unfold task_calls in *. cbn [filter]. rewrite He. exact IH.
Qed.

(** X11.  The tasks leave nothing unflushed.  Take the trace of any
    session and let the interrupt dispatcher preempt the tasks wherever it
    likes, also between a write and its flush: among the calls the loop
    makes, every [tud_cdc_write] and every [tud_cdc_write_str] is directly
    followed by [tud_cdc_write_flush]; no read, indicator write, reset
    write or further write comes between them. *)
Theorem tasks_flush_every_write cfg acts st t' :
  preempted (trace_of (run cfg acts st)) t' ->
  well_flushed (task_calls t') = true.
Proof.
  intros Hpre. rewrite (preempted_task_calls _ _ Hpre).
  apply run_well_flushed.
Qed.

Lemma tasks_flush_every_write_witness :
  well_flushed
    (task_calls [ev_tud_cdc_read 64; ev_tud_cdc_write [x41];
                 ev_tud_int_handler 0; ev_timer0_ev_pending_write 1;
                 ev_tud_cdc_write_flush])
  = true.
Proof.
  apply (tasks_flush_every_write
           sample_board [a_cdc_task 1 [x41] []] (power_on 0)).
  apply preempted_task. apply preempted_task.
  apply preempted_isr; [reflexivity|].
  apply preempted_isr; [reflexivity|].
  apply preempted_task. apply preempted_nil.
Defined.

(* ------------------------------------------------------------------ *)
(** ** The greeting string *)

(** X12.  Two greetings are the same string exactly when their counter
    values agree as unsigned 32-bit numbers: distinct counters in
    [0, 2^32) always give distinct greetings, so a host can tell every
    greeting of a wrap-around period apart. *)
Theorem sprintf_hello_injective a b :
  sprintf_hello a = sprintf_hello b <-> Int.u32 a = Int.u32 b.
Proof.
  split; [|apply sprintf_hello_u32].
  intros Heq.
  assert (Hv : greeting_value (sprintf_hello a)
               = greeting_value (sprintf_hello b)) by (rewrite Heq; reflexivity).
  rewrite !greeting_value_sprintf_hello in Hv.
  injection Hv as Hv. exact Hv.
Qed.

Lemma string_length_append (s1 s2 : string) :
  String.length (s1 ++ s2)%string = (String.length s1 + String.length s2)%nat.
Proof.
  induction s1 as [|a s1 IH]; [reflexivity|].
  cbn [append String.length]. rewrite IH. reflexivity.
Qed.

Lemma string_length_uint d :
  String.length (NilEmpty.string_of_uint d) = Decimal.nb_digits d.
Proof.
  induction d; cbn [NilEmpty.string_of_uint String.length Decimal.nb_digits];
    congruence.
Qed.

Lemma top_digit_nonzero_cons d :
  d = Decimal.Nil \/ top_digit_nonzero d = true ->
  (d <> Decimal.Nil -> top_digit_nonzero (Decimal.D0 d) = true)
  /\ top_digit_nonzero (Decimal.D1 d) = true
  /\ top_digit_nonzero (Decimal.D2 d) = true
  /\ top_digit_nonzero (Decimal.D3 d) = true
  /\ top_digit_nonzero (Decimal.D4 d) = true
  /\ top_digit_nonzero (Decimal.D5 d) = true
  /\ top_digit_nonzero (Decimal.D6 d) = true
  /\ top_digit_nonzero (Decimal.D7 d) = true
  /\ top_digit_nonzero (Decimal.D8 d) = true
  /\ top_digit_nonzero (Decimal.D9 d) = true.
Proof.
  intros [->|Hd].
  - split; [congruence|]. repeat split.
  - split; [intros _; exact Hd|].
    destruct d; cbn [top_digit_nonzero] in Hd |- *;
      try discriminate; repeat split; exact Hd.
Qed.

Lemma top_digit_nonzero_nonnil d :
  top_digit_nonzero d = true -> d <> Decimal.Nil.
Proof. intros Hd ->. discriminate. Qed.

(** Doubling keeps the most significant digit non-zero. *)
Lemma top_digit_nonzero_double d :
  (top_digit_nonzero d = true ->
   top_digit_nonzero (Decimal.Little.double d) = true)
  /\ (d = Decimal.Nil \/ top_digit_nonzero d = true ->
      top_digit_nonzero (Decimal.Little.succ_double d) = true).
Proof.
  induction d as [|d [IHd IHs]|d [IHd IHs]|d [IHd IHs]|d [IHd IHs]|d [IHd IHs]
                  |d [IHd IHs]|d [IHd IHs]|d [IHd IHs]|d [IHd IHs]|d [IHd IHs]].
  - split; [discriminate|]. intros _. reflexivity.
  - (* digit 0: no carry, and the digit above is the top one *)
    split.
    + intros Hd. cbn [top_digit_nonzero] in Hd.
      cbn [Decimal.Little.double top_digit_nonzero]. apply IHd, Hd.
    + intros [Hnil|Hd]; [discriminate|]. cbn [top_digit_nonzero] in Hd.
      cbn [Decimal.Little.succ_double].
      apply top_digit_nonzero_cons. right. apply IHd, Hd.
  - (* digits 1 to 4: no carry *)
    split; [intros Hd|intros [Hnil|Hd]; [discriminate|]];
      cbn [Decimal.Little.double Decimal.Little.succ_double];
      apply top_digit_nonzero_cons;
      (destruct d; [left; reflexivity | right; apply IHd, Hd ..]).
  - split; [intros Hd|intros [Hnil|Hd]; [discriminate|]];
      cbn [Decimal.Little.double Decimal.Little.succ_double];
      apply top_digit_nonzero_cons;
      (destruct d; [left; reflexivity | right; apply IHd, Hd ..]).
  - split; [intros Hd|intros [Hnil|Hd]; [discriminate|]];
      cbn [Decimal.Little.double Decimal.Little.succ_double];
      apply top_digit_nonzero_cons;
      (destruct d; [left; reflexivity | right; apply IHd, Hd ..]).
  - split; [intros Hd|intros [Hnil|Hd]; [discriminate|]];
      cbn [Decimal.Little.double Decimal.Little.succ_double];
      apply top_digit_nonzero_cons;
      (destruct d; [left; reflexivity | right; apply IHd, Hd ..]).
  - (* digit 5: doubling leaves a 0 and carries *)
    split.
    + intros Hd. cbn [Decimal.Little.double top_digit_nonzero].
      apply IHs. destruct d; [left; reflexivity | right; exact Hd ..].
    + intros [Hnil|Hd]; [discriminate|].
      cbn [Decimal.Little.succ_double].
      apply top_digit_nonzero_cons. right.
      apply IHs. destruct d; [left; reflexivity | right; exact Hd ..].
  - (* digits 6 to 9: carry *)
    split; [intros Hd|intros [Hnil|Hd]; [discriminate|]];
      cbn [Decimal.Little.double Decimal.Little.succ_double];
      apply top_digit_nonzero_cons; right; apply IHs;
      (destruct d; [left; reflexivity | right; exact Hd ..]).
  - split; [intros Hd|intros [Hnil|Hd]; [discriminate|]];
      cbn [Decimal.Little.double Decimal.Little.succ_double];
      apply top_digit_nonzero_cons; right; apply IHs;
      (destruct d; [left; reflexivity | right; exact Hd ..]).
  - split; [intros Hd|intros [Hnil|Hd]; [discriminate|]];
      cbn [Decimal.Little.double Decimal.Little.succ_double];
      apply top_digit_nonzero_cons; right; apply IHs;
      (destruct d; [left; reflexivity | right; exact Hd ..]).
  - split; [intros Hd|intros [Hnil|Hd]; [discriminate|]];
      cbn [Decimal.Little.double Decimal.Little.succ_double];
      apply top_digit_nonzero_cons; right; apply IHs;
      (destruct d; [left; reflexivity | right; exact Hd ..]).
Qed.

Lemma top_digit_nonzero_to_little_uint p :
  top_digit_nonzero (Pos.to_little_uint p) = true.
Proof.
  induction p as [p IH|p IH|]; cbn [Pos.to_little_uint].
  - apply top_digit_nonzero_double. right. exact IH.
  - apply top_digit_nonzero_double. exact IH.
  - reflexivity.
Qed.

(** A little-endian number of [n] digits whose top digit is not zero is at
    least 10^(n-1). *)
Lemma of_lu_lower_bound d :
  top_digit_nonzero d = true ->
  (10 ^ N.of_nat (Decimal.nb_digits d) <= 10 * DecimalPos.Unsigned.of_lu d)%N.
Proof.
  induction d as [|d IH|d IH|d IH|d IH|d IH|d IH|d IH|d IH|d IH|d IH];
    intros Hd; [discriminate|..];
    cbn [Decimal.nb_digits DecimalPos.Unsigned.of_lu];
    rewrite Nat2N.inj_succ, N.pow_succ_r';
    (destruct d;
     [ try discriminate Hd; cbn; lia
     | specialize (IH Hd); lia .. ]).
Qed.

Lemma nb_digits_to_uint p :
  (N.pos p < 2 ^ 32)%N -> (Decimal.nb_digits (Pos.to_uint p) <= 10)%nat.
Proof.
  intros Hp. unfold Pos.to_uint. rewrite DecimalFacts.nb_digits_rev.
  pose proof (of_lu_lower_bound _ (top_digit_nonzero_to_little_uint p)) as Hlow.
  rewrite <- DecimalPos.Unsigned.of_lu_rev in Hlow.
  change (Decimal.rev (Pos.to_little_uint p)) with (Pos.to_uint p) in Hlow.
  rewrite DecimalPos.Unsigned.of_to in Hlow.
  set (n := Decimal.nb_digits (Pos.to_little_uint p)) in *.
  assert (Hlt : (10 ^ N.of_nat n < 10 ^ 11)%N).
  { eapply N.le_lt_trans; [exact Hlow|].
    change (10 ^ 11)%N with (10 * 10 ^ 10)%N.
    apply N.mul_lt_mono_pos_l; [reflexivity|].
    eapply N.lt_trans; [exact Hp|]. reflexivity. }
  apply N.pow_lt_mono_r_iff in Hlt; [lia|reflexivity].
Qed.

Lemma format_u_length v :
  (1 <= String.length (format_u v) <= 10)%nat.
Proof.
  unfold format_u.
  pose proof (IntFacts.u32_range v) as Hr.
  destruct (string_of_N_nonnil (Z.to_N (Int.u32 v))) as [Hs Hn].
  rewrite Hs, string_length_uint.
  destruct (Z.to_N (Int.u32 v)) as [|p] eqn:Hp; [cbn; lia|].
  split.
  - cbn [N.to_uint] in Hn |- *.
    destruct (Pos.to_uint p); [contradiction|cbn; lia..].
  - cbn [N.to_uint]. apply nb_digits_to_uint.
    rewrite <- Hp. unfold Int.modulus in Hr.
    change (2 ^ 32)%N with (Z.to_N (2 ^ 32)).
    apply Z2N.inj_lt; lia.
Qed.

(** X13.  The greeting always fits its buffer: [sprintf] writes between 10
    and 19 characters, so with the terminating NUL at most 20 of the 256
    bytes of [str] are used, whatever the counter holds. *)
Theorem sprintf_hello_fits_buffer v :
  (10 <= String.length (sprintf_hello v) <= 19)%nat
  /\ (String.length (sprintf_hello v) + 1 <= GREETING_BUF_SIZE)%nat.
Proof.
  unfold sprintf_hello, GREETING_BUF_SIZE.
  rewrite !string_length_append.
  pose proof (format_u_length v) as Hf.
  cbn [String.length CRLF]. lia.
Qed.
